(** * CSU_RadarTools: fuzzy-logic hydrometeor classification ([csu_fhc.py])

    A shallow embedding of [csu_radartools/csu_fhc.py] and the properties of
    its scoring primitive [hid_beta], of the summer classifier
    [csu_fhc_summer] with its private helpers, and of the blend performed by
    [run_winter].

    Numbers.  The Python code computes on numpy floating-point arrays.  They
    are modelled by exact numbers extended with the two infinities and NaN
    ([ext]): the arithmetic follows the IEEE 754 rules for the special
    values (division by zero, [inf - inf], NaN propagation) but neither
    rounds nor overflows, and there is a single unsigned zero.  The carrier
    of the finite values is [R] for the closed-form study of [hid_beta]
    (its exponent is an arbitrary real) and [Q] for the classifiers, which
    stay executable.  The range of [hid_beta] depends on rounding and on
    overflow: it is studied on a second embedding, [BetaFloat], whose
    operations round to an arbitrary floating-point format. *)

From Stdlib Require Import String Ascii List Bool Arith ZArith QArith Lia.
From Stdlib Require Import Reals Lra.
Import ListNotations.

Set Implicit Arguments.

(** ** Extended numbers *)

Class Num (A : Type) : Type := {
  n0 : A;
  n1 : A;
  nadd : A -> A -> A;
  nsub : A -> A -> A;
  nmul : A -> A -> A;
  ndiv : A -> A -> A;
  ncmp : A -> A -> comparison
}.

#[global] Instance Num_Q : Num Q := {
  n0 := 0%Q;
  n1 := 1%Q;
  nadd := Qplus;
  nsub := Qminus;
  nmul := Qmult;
  ndiv := Qdiv;
  ncmp := Qcompare
}.

Definition Rcmp (x y : R) : comparison :=
  match total_order_T x y with
  | inleft (left _) => Lt
  | inleft (right _) => Eq
  | inright _ => Gt
  end.

#[global] Instance Num_R : Num R := {
  n0 := 0%R;
  n1 := 1%R;
  nadd := Rplus;
  nsub := Rminus;
  nmul := Rmult;
  ndiv := Rdiv;
  ncmp := Rcmp
}.

Inductive ext (A : Type) : Type :=
| Fin (a : A)
| PInf
| NInf
| NaN.

Arguments PInf {A}.
Arguments NInf {A}.
Arguments NaN {A}.

Section ExtArith.
Context {A : Type} `{Num A}.

(** Sign of a finite value: [Lt] negative, [Eq] zero, [Gt] positive. *)
Definition sgn (a : A) : comparison := ncmp a n0.

Definition xneg (x : ext A) : ext A :=
  match x with
  | Fin a => Fin (nsub n0 a)
  | PInf => NInf
  | NInf => PInf
  | NaN => NaN
  end.

Definition xadd (x y : ext A) : ext A :=
  match x, y with
  | NaN, _ | _, NaN => NaN
  | Fin a, Fin b => Fin (nadd a b)
  | PInf, NInf | NInf, PInf => NaN
  | PInf, _ | _, PInf => PInf
  | NInf, _ | _, NInf => NInf
  end.

Definition xsub (x y : ext A) : ext A :=
  match x, y with
  | NaN, _ | _, NaN => NaN
  | Fin a, Fin b => Fin (nsub a b)
  | PInf, PInf | NInf, NInf => NaN
  | PInf, _ | _, NInf => PInf
  | NInf, _ | _, PInf => NInf
  end.

(** An infinity of sign [pos] scaled by a finite value of sign [s]. *)
Definition inf_times (pos : bool) (s : comparison) : ext A :=
  match s with
  | Eq => NaN
  | Gt => if pos then PInf else NInf
  | Lt => if pos then NInf else PInf
  end.

Definition xmul (x y : ext A) : ext A :=
  match x, y with
  | NaN, _ | _, NaN => NaN
  | Fin a, Fin b => Fin (nmul a b)
  | PInf, Fin b => inf_times true (sgn b)
  | NInf, Fin b => inf_times false (sgn b)
  | Fin a, PInf => inf_times true (sgn a)
  | Fin a, NInf => inf_times false (sgn a)
  | PInf, PInf | NInf, NInf => PInf
  | PInf, NInf | NInf, PInf => NInf
  end.

Definition xdiv (x y : ext A) : ext A :=
  match x, y with
  | NaN, _ | _, NaN => NaN
  | Fin a, Fin b =>
      match sgn b with
      | Eq => match sgn a with
              | Gt => PInf
              | Lt => NInf
              | Eq => NaN
              end
      | _ => Fin (ndiv a b)
      end
  | Fin _, PInf | Fin _, NInf => Fin n0
  | PInf, Fin b => match sgn b with Lt => NInf | _ => PInf end
  | NInf, Fin b => match sgn b with Lt => PInf | _ => NInf end
  | _, _ => NaN
  end.

(** numpy's [x ** 2] is [square], that is [x * x]. *)
Definition xsq (x : ext A) : ext A := xmul x x.

(** [not (x <= y)], the test numpy's arg-max uses to move to a new
    maximum: true when [x] is greater than [y] or either is NaN. *)
Definition not_le (x y : ext A) : bool :=
  match x, y with
  | NaN, _ | _, NaN => true
  | Fin a, Fin b => match ncmp a b with Gt => true | _ => false end
  | PInf, PInf => false
  | PInf, _ => true
  | _, PInf => false
  | NInf, _ => false
  | Fin _, NInf => true
  end.

Definition is_nan (x : ext A) : bool :=
  match x with NaN => true | _ => false end.

End ExtArith.

(** ** The scoring primitive [hid_beta] *)

Module Beta.

Local Open Scope R_scope.

(** Python's float [**] with a finite real exponent, on the bases that
    [hid_beta] feeds it: the base is always a square, so it is never
    negative; a negative base, which depends on
    the exponent being an integer, is left as NaN here. *)
Definition xpow (x : ext R) (b : R) : ext R :=
  match x with
  | NaN => match sgn b with Eq => Fin 1 | _ => NaN end
  | PInf => match sgn b with Gt => PInf | Eq => Fin 1 | Lt => Fin 0 end
  | NInf => NaN
  | Fin r =>
      match sgn r with
      | Gt => Fin (Rpower r b)
      | Eq => match sgn b with Gt => Fin 0 | Eq => Fin 1 | Lt => PInf end
      | Lt => NaN
      end
  end.

(** One element of
    [return 1.0/(1.0 + (((x_arr - m)/a)**2)**b)]. *)
Definition hid_beta1 (x : ext R) (a b m : R) : ext R :=
  xdiv (Fin 1) (xadd (Fin 1) (xpow (xsq (xdiv (xsub x (Fin m)) (Fin a))) b)).

(** [hid_beta(x_arr, a, b, m)]: numpy applies the expression to every
    element of [x_arr], the scalars [a], [b], [m] being broadcast. *)
Definition hid_beta (x_arr : list (ext R)) (a b m : R) : list (ext R) :=
  map (fun x => hid_beta1 x a b m) x_arr.


(** The formula the code computes on finite reals: the exponent [b] is
    applied to the square only, and 1 is added afterwards.  At the centre
    [x = m] the square is zero and [0 ** b] is 0, 1 or infinite as [b] is
    positive, zero or negative. *)
Definition beta_formula (x a b m : R) : R :=
  if Req_dec_T x m
  then match Rcmp b 0 with
       | Gt => 1
       | Eq => 1 / 2
       | Lt => 0
       end
  else 1 / (1 + Rpower (((x - m) / a) ^ 2) b).

End Beta.

(** ** [hid_beta] in rounded arithmetic *)

(** The same expression with every operation rounded to a floating-point
    format, for the properties that depend on rounding or on overflow. *)
Module BetaFloat.

Local Open Scope R_scope.

(** A floating-point format, as far as [hid_beta] depends on it.  [rnd r]
    is what an operation returns whose exact result is [r]: a value of the
    format near [r], or an infinity when [r] is beyond its range.  [fpow]
    is the library's [pow] at a positive finite base, which the float [**]
    calls and which need not be correctly rounded. *)
Class Format : Type := {
  rnd : R -> ext R;
  fpow : R -> R -> ext R
}.

(** The order of the extended reals; NaN is comparable with nothing. *)
Definition ext_le (x y : ext R) : Prop :=
  match x, y with
  | NaN, _ | _, NaN => False
  | NInf, _ => True
  | _, PInf => True
  | Fin r, Fin s => r <= s
  | _, _ => False
  end.

(** What IEEE 754 arithmetic guarantees of a format, in any of its
    rounding modes: rounding is monotone, 0 and 1 are values of the format,
    and a power of a positive base is never negative and never NaN. *)
Class Rounding (F : Format) : Prop := {
  rnd_monotone : forall r s : R, r <= s -> ext_le (rnd r) (rnd s);
  rnd_0 : rnd 0 = Fin 0;
  rnd_1 : rnd 1 = Fin 1;
  fpow_nonneg : forall s b : R, 0 < s -> ext_le (Fin 0) (fpow s b)
}.

Section Rounded.
Context {F : Format}.

(** The result of an operation: a finite exact result is rounded, an
    infinity or a NaN is returned as it is. *)
Definition round (x : ext R) : ext R :=
  match x with
  | Fin r => rnd r
  | _ => x
  end.

Definition fsub (x y : ext R) : ext R := round (xsub x y).
Definition fdiv (x y : ext R) : ext R := round (xdiv x y).
Definition fadd (x y : ext R) : ext R := round (xadd x y).
Definition fsq (x : ext R) : ext R := round (xsq x).

(** [x ** b]: the library's [pow] at a positive finite base, the special
    values of [Beta.xpow] elsewhere. *)
Definition fpowx (x : ext R) (b : R) : ext R :=
  match x with
  | Fin r => match sgn r with
             | Gt => fpow r b
             | _ => Beta.xpow x b
             end
  | _ => Beta.xpow x b
  end.

(** One element of
    [return 1.0/(1.0 + (((x_arr - m)/a)**2)**b)]. *)
Definition hid_beta1 (x : ext R) (a b m : R) : ext R :=
  fdiv (Fin 1)
       (fadd (Fin 1) (fpowx (fsq (fdiv (fsub x (Fin m)) (Fin a))) b)).

Definition hid_beta (x_arr : list (ext R)) (a b m : R) : list (ext R) :=
  map (fun x => hid_beta1 x a b m) x_arr.

End Rounded.

(** Exact arithmetic: nothing is rounded and nothing overflows. *)
Definition exact : Format := {|
  rnd := fun r => Fin r;
  fpow := fun s b => Fin (Rpower s b)
|}.

(** Arithmetic that is exact up to the magnitude [M] and overflows to an
    infinity beyond it. *)
Definition overflow_rnd (M r : R) : ext R :=
  match Rcmp r M with
  | Gt => PInf
  | _ => match Rcmp r (- M) with
         | Lt => NInf
         | _ => Fin r
         end
  end.

Definition overflow_at (M : R) : Format := {|
  rnd := overflow_rnd M;
  fpow := fun s b => overflow_rnd M (Rpower s b)
|}.

(** The range of binary64, whose finite values are below [2^1024]. *)
Definition binary64_range : Format := overflow_at (2 ^ 1024).

End BetaFloat.

(** ** Python outcomes *)

Inductive exn : Type :=
| UnboundLocalError
| ValueError
| IndexError
| KeyError.

(** A Python call either hands back a value or raises. *)
Inductive exc (A : Type) : Type :=
| Ok (v : A)
| Raise (e : exn).

Arguments Raise {A} e.

Definition bind {A B : Type} (c : exc A) (k : A -> exc B) : exc B :=
  match c with
  | Ok v => k v
  | Raise e => Raise e
  end.

Notation "x <- c ;; k" := (bind c (fun x => k))
  (at level 61, c at next level, right associativity).

Fixpoint mapM {A B : Type} (f : A -> exc B) (l : list A) : exc (list B) :=
  match l with
  | [] => Ok []
  | x :: l' => y <- f x ;; ys <- mapM f l' ;; Ok (y :: ys)
  end.

(** ** numpy arrays of idealised floats *)

Definition fl : Type := ext Q.

Definition of_int (z : Z) : fl := Fin (inject_Z z).

Definition prod_shape (shape : list nat) : nat := fold_right Nat.mul 1%nat shape.

(** [x[i]] on a Python sequence. *)
Definition getitem {A : Type} (l : list A) (i : nat) : exc A :=
  match nth_error l i with
  | Some v => Ok v
  | None => Raise IndexError
  end.

Fixpoint map2 {A B C : Type} (f : A -> B -> C) (u : list A) (v : list B) : list C :=
  match u, v with
  | x :: u', y :: v' => f x y :: map2 f u' v'
  | _, _ => []
  end.

(** numpy's arg-max over a one-dimensional float array: the first index of
    the maximum, a NaN counting as the maximum (the scan stops at it). *)
Fixpoint argmax_from (mp : fl) (idx i : nat) (l : list fl) : nat :=
  if is_nan mp then idx
  else match l with
       | [] => idx
       | x :: l' =>
           if not_le x mp then argmax_from x i (S i) l'
           else argmax_from mp idx (S i) l'
       end.

Definition argmax (l : list fl) : nat :=
  match l with
  | [] => 0%nat
  | x :: l' => argmax_from x 0 1 l'
  end.

(** Column [j] of a row-major array with [n] rows of [P] elements. *)
Definition column (n P : nat) (dat : list fl) (j : nat) : list fl :=
  map (fun c => nth (c * P + j) dat NaN) (seq 0 n).

(** [np.argmax(arr, axis=0) + 1] for [arr] of shape [n :: rest]: numpy
    refuses an empty reduction axis. *)
Definition argmax_axis0_plus1 (n : nat) (rest : list nat) (dat : list fl)
  : exc (list Z) :=
  match n with
  | O => Raise ValueError
  | S _ =>
      let P := prod_shape rest in
      Ok (map (fun j => (Z.of_nat (argmax (column n P dat j)) + 1)%Z) (seq 0 P))
  end.

(** [arr.reshape(newshape)] on the flat data: the sizes must agree. *)
Definition reshape (dat : list fl) (newshape : list nat) : exc (list nat * list fl) :=
  if (prod_shape newshape =? length dat)%nat then Ok (newshape, dat)
  else Raise ValueError.

(** Python's [sub in s] on strings. *)
Fixpoint str_in (sub s : string) : bool :=
  if String.prefix sub s then true
  else match s with
       | EmptyString => false
       | String _ s' => str_in sub s'
       end.

(** ** The summer classifier [csu_fhc_summer]

    The call is modelled with [verbose=False], its default: the printed
    lines kept are the two diagnostics that do not depend on it. *)

Module Summer.

(** The keys ['DZ'], ['DR'], ['KD'], ['RH'], ['LD'], ['T'] of the
    dictionaries [fhc_vars], [radar_data], [weights] and [sets]. *)
Inductive key : Type := DZ | DR | KD | RH | LD | T.

Definition key_eqb (k1 k2 : key) : bool :=
  match k1, k2 with
  | DZ, DZ | DR, DR | KD, KD | RH, RH | LD, LD | T, T => true
  | _, _ => false
  end.

(** A Python dict over these keys. *)
Definition dict (V : Type) : Type := key -> option V.

Definition empty {V : Type} : dict V := fun _ => None.

Definition setitem {V : Type} (d : dict V) (k : key) (v : V) : dict V :=
  fun k' => if key_eqb k' k then Some v else d k'.

Definition getd {V : Type} (d : dict V) (k : key) : exc V :=
  match d k with
  | Some v => Ok v
  | None => Raise KeyError
  end.

Definition has_key {V : Type} (d : dict V) (k : key) : bool :=
  match d k with
  | Some _ => true
  | None => false
  end.

(** An input measurand: a scalar (shape [[]]) or an array, given by its
    shape and its elements in row-major order. *)
Record measurand : Type := { m_shape : list nat; m_data : list fl }.

Definition np_shape (v : measurand) : list nat := m_shape v.
Definition np_size (v : measurand) : nat := prod_shape (m_shape v).
Definition np_ndim (v : measurand) : nat := List.length (m_shape v).

(** The weight table has DEFAULT_WEIGHTS' structure: one weight per key. *)
Definition weight_table : Type := key -> fl.

Definition DEFAULT_WEIGHTS : weight_table :=
  fun k =>
    match k with
    | DZ => Fin (3 # 2)
    | DR => Fin (8 # 10)
    | KD => Fin 1
    | RH => Fin (8 # 10)
    | LD => Fin (5 # 10)
    | T => Fin (4 # 10)
    end.

(** Membership parameters of one variable: the arrays ['a'], ['b'], ['m'],
    indexed by species. *)
Record mbf : Type := { set_a : list fl; set_b : list fl; set_m : list fl }.

(** What [get_mbf_sets_summer] hands back. *)
Record mbf_sets : Type := {
  Zh_set : mbf;
  Zdr_set : mbf;
  Kdp_set : mbf;
  LDR_set : mbf;
  rho_set : mbf;
  T_set : mbf
}.

(** The value bound to the local [test]: what [np.sum(..., axis=0)]
    yields is an array, or a numpy scalar when the summed list is empty. *)
Inductive ndval : Type :=
| Scalar (x : fl)
| Arr (l : list fl).

(** What [csu_fhc_summer] returns when it does not return [None]. *)
Inductive result : Type :=
| Scores (shape : list nat) (dat : list fl)
| Categories (shape : list nat) (dat : list Z).

Definition truthy (z : Z) : bool := negb (z =? 0)%Z.

Definition _convert_mbf_sets (s : mbf_sets) : key -> mbf :=
  fun k =>
    match k with
    | DZ => Zh_set s
    | DR => Zdr_set s
    | KD => Kdp_set s
    | LD => LDR_set s
    | RH => rho_set s
    | T => T_set s
    end.

Definition _get_pol_flag (fhc_vars : dict Z) : exc bool :=
  dr <- getd fhc_vars DR ;;
  if truthy dr then Ok true else
  kd <- getd fhc_vars KD ;;
  if truthy kd then Ok true else
  ld <- getd fhc_vars LD ;;
  if truthy ld then Ok true else
  rh <- getd fhc_vars RH ;;
  Ok (truthy rh).

(** State of the loop of [_populate_vars]. *)
Record pop_state : Type := {
  ps_radar_data : dict (list fl);
  ps_fhc_vars : dict Z;
  ps_shp : option (list nat);
  ps_sz : option nat
}.

Definition populate_step (st : pop_state) (kv : key * option measurand)
  : pop_state :=
  let (k, var) := kv in
  match var with
  | Some v =>
      let shp := if key_eqb k DZ then Some (np_shape v) else ps_shp st in
      let sz := if key_eqb k DZ then Some (np_size v) else ps_sz st in
      (* ravel of an N-d array, the array itself for 1-d, [var] for 0-d:
         in each case the elements in row-major order *)
      let flat := m_data v in
      {| ps_radar_data := setitem (ps_radar_data st) k flat;
         ps_fhc_vars := setitem (ps_fhc_vars st) k 1%Z;
         ps_shp := shp;
         ps_sz := sz |}
  | None =>
      {| ps_radar_data := ps_radar_data st;
         ps_fhc_vars := setitem (ps_fhc_vars st) k 0%Z;
         ps_shp := ps_shp st;
         ps_sz := ps_sz st |}
  end.

Definition _populate_vars (dz zdr kdp rho ldr T_ : option measurand)
  : exc (dict (list fl) * dict Z * list nat * nat) :=
  let varlist := [dz; zdr; kdp; rho; ldr; T_] in
  let keylist := [DZ; DR; KD; RH; LD; T] in
  let st := fold_left populate_step (combine keylist varlist)
              {| ps_radar_data := empty; ps_fhc_vars := empty;
                 ps_shp := None; ps_sz := None |} in
  match ps_shp st, ps_sz st with
  | Some shp, Some sz => Ok (ps_radar_data st, ps_fhc_vars st, shp, sz)
  | _, _ => Raise UnboundLocalError
  end.

(** [np.sum] of a one-dimensional array. *)
Definition np_sum (l : list fl) : fl :=
  match l with
  | [] => Fin 0
  | x :: l' => fold_left xadd l' x
  end.

(** [np.sum(np.array(rows), axis=0)]: rows of one length are added
    element-wise; an empty list sums to the scalar zero; rows of
    different lengths make no array (current numpy raises ValueError). *)
Definition np_sum_axis0 (rows : list (list fl)) : exc ndval :=
  match rows with
  | [] => Ok (Scalar (Fin 0))
  | r :: rs =>
      if forallb (fun r' => (List.length r' =? List.length r)%nat) rs
      then Ok (Arr (fold_left (map2 xadd) rs r))
      else Raise ValueError
  end.

Definition div_scalar (v : ndval) (w : fl) : ndval :=
  match v with
  | Scalar x => Scalar (xdiv x w)
  | Arr l => Arr (map (fun x => xdiv x w) l)
  end.

Definition _get_weight_sum (fhc_vars : dict Z) (weights : weight_table)
    (method : string)
  : list string * exc (option (fl * list key)) :=
  let sum_over (varlist : list key) :=
    ([], ws <- mapM (fun k => v <- getd fhc_vars k ;;
                              Ok (xmul (of_int v) (weights k))) varlist ;;
         Ok (Some (np_sum ws, varlist))) in
  if str_in "hybrid" method then sum_over [DR; KD; RH; LD]
  else if str_in "linear" method then sum_over [DR; KD; RH; LD; T; DZ]
  else (["No weighting method defined, use hybrid or linear"%string], Ok None).

Section Externals.

(** Functions of the package that live in other modules:
    [beta_functions.get_mbf_sets_summer(use_temp, plot_flag, n_types,
    temp_factor, band)], the compiled
    [calc_kdp_ray_fir.hid_beta_f(sz, x_arr, a, b, m)] and
    [csu_t_traps.get_hid_traps(c, T)]. *)
Variable get_mbf_sets_summer : bool -> bool -> nat -> fl -> string -> mbf_sets.
Variable hid_beta_f : nat -> list fl -> fl -> fl -> fl -> list fl.
Variable get_hid_traps : nat -> list fl -> list fl.

(** [hid_beta_f(sz, radar_data[key], sets[key]['a'][c],
    sets[key]['b'][c], sets[key]['m'][c])]. *)
Definition beta_of (radar_data : dict (list fl)) (sets : key -> mbf)
    (sz : nat) (k : key) (c : nat) : exc (list fl) :=
  x <- getd radar_data k ;;
  a <- getitem (set_a (sets k)) c ;;
  b <- getitem (set_b (sets k)) c ;;
  m <- getitem (set_m (sets k)) c ;;
  Ok (hid_beta_f sz x a b m).

Definition weighted_beta (fhc_vars : dict Z) (weights : weight_table)
    (radar_data : dict (list fl)) (sets : key -> mbf)
    (sz : nat) (k : key) (c : nat) : exc (list fl) :=
  v <- getd fhc_vars k ;;
  h <- beta_of radar_data sets sz k c ;;
  Ok (map (xmul (xmul (of_int v) (weights k))) h).

Definition _calculate_test (fhc_vars : dict Z) (weights : weight_table)
    (radar_data : dict (list fl)) (sets : key -> mbf)
    (varlist : list key) (weight_sum : fl) (c sz : nat) : exc ndval :=
  terms <- mapM (fun k => weighted_beta fhc_vars weights radar_data sets sz k c)
                (filter (has_key radar_data) varlist) ;;
  s <- np_sum_axis0 terms ;;
  Ok (div_scalar s weight_sum).

Definition _calculate_test_trap (fhc_vars : dict Z) (weights : weight_table)
    (radar_data : dict (list fl)) (sets : key -> mbf)
    (varlist : list key) (weight_sum : fl) (c sz : nat) : exc ndval :=
  b_val <- mapM (fun k =>
                   if key_eqb k T
                   then x <- getd radar_data k ;; Ok (get_hid_traps c x)
                   else weighted_beta fhc_vars weights radar_data sets sz k c)
                (filter (has_key radar_data) varlist) ;;
  s <- np_sum_axis0 b_val ;;
  Ok (div_scalar s weight_sum).

(** Reading the local [test]: it may not have been assigned yet. *)
Definition load (test : option ndval) : exc ndval :=
  match test with
  | Some v => Ok v
  | None => Raise UnboundLocalError
  end.

(** [test *= h]: an array is multiplied in place, [h] being broadcast
    when it has one element; a numpy scalar is replaced by the
    product. *)
Definition imul (test : ndval) (h : list fl) : exc ndval :=
  match test with
  | Scalar s => Ok (Arr (map (xmul s) h))
  | Arr t =>
      if (List.length h =? List.length t)%nat then Ok (Arr (map2 xmul t h))
      else if (List.length h =? 1)%nat
           then Ok (Arr (map (fun x => xmul x (hd NaN h)) t))
           else Raise ValueError
  end.

Section Loop.

Variables (fhc_vars : dict Z) (weights : weight_table)
          (radar_data : dict (list fl)) (sets : key -> mbf)
          (varlist : list key) (weight_sum : fl)
          (pol_flag trap_flag use_temp : bool) (method : string)
          (sz : nat).

Definition pol_core (c : nat) : exc ndval :=
  if trap_flag
  then _calculate_test_trap fhc_vars weights radar_data sets
         varlist weight_sum c sz
  else _calculate_test fhc_vars weights radar_data sets
         varlist weight_sum c sz.

(** The body of the loop over species, up to [test_list.append]:
    from the binding of [test] left by the previous iteration to the
    one this iteration leaves. *)
Definition species_test (c : nat) (test : option ndval)
  : exc (option ndval) :=
  if str_in "hybrid" method then
    test1 <- (if pol_flag
              then t <- pol_core c ;; Ok (Some t)
              else Ok test) ;;
    test2 <- (if use_temp then
                if pol_flag then
                  t0 <- load test1 ;;
                  h <- beta_of radar_data sets sz T c ;;
                  t <- imul t0 h ;; Ok (Some t)
                else
                  h <- beta_of radar_data sets sz T c ;;
                  Ok (Some (Arr h))
              else Ok test1) ;;
    vdz <- getd fhc_vars DZ ;;
    if truthy vdz then
      if pol_flag || use_temp then
        t0 <- load test2 ;;
        h <- beta_of radar_data sets sz DZ c ;;
        t <- imul t0 h ;; Ok (Some t)
      else
        h <- beta_of radar_data sets sz DZ c ;;
        Ok (Some (Arr h))
    else Ok test2
  else if str_in "linear" method then
    if pol_flag
    then t <- pol_core c ;; Ok (Some t)
    else Ok test
  else Ok test.

(** [for c in range(...)]: the local [test] and the list built so
    far are carried from one iteration to the next. *)
Fixpoint test_loop (cs : list nat) (test : option ndval)
    (test_list : list ndval) : exc (list ndval) :=
  match cs with
  | [] => Ok test_list
  | c :: cs' =>
      test' <- species_test c test ;;
      t <- load test' ;;
      test_loop cs' (Some t) (test_list ++ [t])
  end.

(** The function has no [return None] left (they are commented out);
    the result keeps Python's optional type for the caller's
    [is None] test. *)
Definition _get_test_list : exc (option (list ndval)) :=
  l <- test_loop (seq 0 (List.length (set_m (sets DZ)))) None [] ;;
  Ok (Some l).

End Loop.

(** [np.array(test_list)]: shape and elements in row-major order. *)
Definition scalars_of (l : list ndval) : option (list fl) :=
  fold_right (fun v acc =>
                match v, acc with
                | Scalar x, Some xs => Some (x :: xs)
                | _, _ => None
                end) (Some []) l.

Definition rows_of (l : list ndval) : option (list (list fl)) :=
  fold_right (fun v acc =>
                match v, acc with
                | Arr r, Some rs => Some (r :: rs)
                | _, _ => None
                end) (Some []) l.

Definition np_array (test_list : list ndval) : exc (list nat * list fl) :=
  match test_list with
  | [] => Ok ([0%nat], [])
  | _ =>
      match scalars_of test_list, rows_of test_list with
      | Some xs, _ => Ok ([List.length xs], xs)
      | None, Some (r :: rs) =>
          if forallb (fun r' => (List.length r' =? List.length r)%nat) rs
          then Ok ([S (List.length rs); List.length r], concat (r :: rs))
          else Raise ValueError
      | _, _ => Raise ValueError
      end
  end.

Definition csu_fhc_summer (use_temp : bool) (weights : weight_table)
    (method : string) (dz zdr ldr kdp rho T_ : option measurand)
    (plot_flag use_trap : bool) (n_types : nat) (temp_factor : fl)
    (band : string) (return_scores : bool)
  : list string * exc (option result) :=
  match dz with
  | None => (["FHC fail, no reflectivity field"%string], Ok None)
  | Some _ =>
      let use_temp := match T_ with None => false | Some _ => use_temp end in
      match _populate_vars dz zdr kdp rho ldr T_ with
      | Raise e => ([], Raise e)
      | Ok (radar_data, fhc_vars, shp, sz) =>
          let mbf_sets :=
            get_mbf_sets_summer use_temp plot_flag n_types temp_factor band in
          let sets := _convert_mbf_sets mbf_sets in
          match _get_pol_flag fhc_vars with
          | Raise e => ([], Raise e)
          | Ok pol_flag =>
              let trap_flag := use_trap in
              let fhc_vars :=
                if use_temp then fhc_vars else setitem fhc_vars T 0%Z in
              match _get_weight_sum fhc_vars weights method with
              | (out, Raise e) => (out, Raise e)
              | (out, Ok None) => (out, Ok None)
              | (out, Ok (Some (weight_sum, varlist))) =>
                  (out,
                   tl <- _get_test_list fhc_vars weights radar_data sets
                           varlist weight_sum pol_flag trap_flag use_temp
                           method sz ;;
                   match tl with
                   | None => Ok None
                   | Some test_list =>
                       mu <- np_array test_list ;;
                       let shp' := n_types :: shp in
                       cube <- reshape (snd mu) shp' ;;
                       if return_scores
                       then Ok (Some (Scores shp' (snd cube)))
                       else
                         hid <- argmax_axis0_plus1 n_types shp (snd cube) ;;
                         Ok (Some (Categories shp hid))
                   end)
              end
          end
      end
  end.

End Externals.

(** *** A small configuration to run the classifier on

    Stand-ins for the three external functions: a table of two species,
    the beta function on rationals for exponent [b = 1] (the only
    exponent of the table), and a trapezoid that is 1 everywhere. *)

Definition sample_mbf : mbf :=
  {| set_a := [Fin 1; Fin 2]; set_b := [Fin 1; Fin 1]; set_m := [Fin 0; Fin 10] |}.

Definition sample_sets (use_temp plot_flag : bool) (n_types : nat)
    (temp_factor : fl) (band : string) : mbf_sets :=
  {| Zh_set := sample_mbf; Zdr_set := sample_mbf; Kdp_set := sample_mbf;
     LDR_set := sample_mbf; rho_set := sample_mbf; T_set := sample_mbf |}.

Definition sample_beta_f (sz : nat) (x_arr : list fl) (a b m : fl) : list fl :=
  map (fun x => xdiv (Fin 1) (xadd (Fin 1) (xsq (xdiv (xsub x m) a)))) x_arr.

Definition sample_traps (c : nat) (T_arr : list fl) : list fl :=
  map (fun _ => Fin 1) T_arr.

Definition zero_weights : weight_table := fun _ => Fin 0.

(** A one-bin array holding [q]. *)
Definition one_bin (q : Q) : measurand := {| m_shape := [1%nat]; m_data := [Fin q] |}.

Definition sample_call (use_temp : bool) (weights : weight_table)
    (method : string) (dz zdr ldr kdp rho T_ : option measurand)
    (return_scores : bool) : list string * exc (option result) :=
  csu_fhc_summer sample_sets sample_beta_f sample_traps use_temp weights
    method dz zdr ldr kdp rho T_ false false 2 (Fin 1) "S" return_scores.

End Summer.

(** ** The winter blend [run_winter] *)

Module Winter.

Import Summer.

(** Integer arrays are Python objects that [run_winter] updates in
    place and hands on by reference: they live in a store, and a
    variable holds a location.  An array is kept flattened in row-major
    order, its length standing for its shape. *)
Definition loc : Type := nat.

Record state : Type := {
  heap : list (list Z);
  stdout : list string
}.

Definition M (A : Type) : Type := state -> exc (A * state).

Definition ret {A : Type} (v : A) : M A := fun st => Ok (v, st).

Definition raise {A : Type} (e : exn) : M A := fun _ => Raise e.

Definition mbind {A B : Type} (c : M A) (k : A -> M B) : M B :=
  fun st =>
    match c st with
    | Ok (v, st') => k v st'
    | Raise e => Raise e
    end.

Notation "x <~ c ;; k" := (mbind c (fun x => k))
  (at level 61, c at next level, right associativity).

Definition lift {A : Type} (c : exc A) : M A :=
  fun st =>
    match c with
    | Ok v => Ok (v, st)
    | Raise e => Raise e
    end.

(** A new array object. *)
Definition alloc (v : list Z) : M loc :=
  fun st => Ok (List.length (heap st),
                {| heap := heap st ++ [v]; stdout := stdout st |}).

Definition deref (st : state) (l : loc) : list Z := nth l (heap st) [].

Definition read (l : loc) : M (list Z) := fun st => Ok (deref st l, st).

Fixpoint set_nth {A : Type} (l : list A) (i : nat) (v : A) : list A :=
  match l, i with
  | [], _ => []
  | _ :: l', O => v :: l'
  | x :: l', S i' => x :: set_nth l' i' v
  end.

Definition write (l : loc) (v : list Z) : M unit :=
  fun st => Ok (tt, {| heap := set_nth (heap st) l v; stdout := stdout st |}).

Definition print (s : string) : M unit :=
  fun st => Ok (tt, {| heap := heap st; stdout := stdout st ++ [s] |}).

(** [arr == v], element-wise. *)
Definition eq_mask (arr : list Z) (v : Z) : list bool :=
  map (fun x => (x =? v)%Z) arr.

Fixpoint select (arr : list Z) (mask : list bool) : list Z :=
  match arr, mask with
  | x :: arr', b :: mask' =>
      if b then x :: select arr' mask' else select arr' mask'
  | _, _ => []
  end.

Fixpoint scatter (arr : list Z) (mask : list bool) (vals : list Z) : list Z :=
  match arr, mask with
  | x :: arr', true :: mask' =>
      match vals with
      | v :: vals' => v :: scatter arr' mask' vals'
      | [] => x :: scatter arr' mask' []
      end
  | x :: arr', false :: mask' => x :: scatter arr' mask' vals
  | _, _ => arr
  end.

Fixpoint fill (arr : list Z) (mask : list bool) (v : Z) : list Z :=
  match arr, mask with
  | x :: arr', b :: mask' => (if b then v else x) :: fill arr' mask' v
  | _, _ => arr
  end.

Definition count_true (mask : list bool) : nat :=
  List.length (filter (fun b => b) mask).

(** [src[mask]] with a boolean mask: the shapes must agree. *)
Definition getitem_mask (src : loc) (mask : list bool) : M (list Z) :=
  arr <~ read src ;;
  if (List.length arr =? List.length mask)%nat then ret (select arr mask)
  else raise IndexError.

(** [dst[mask] = vals]: the shapes must agree and there must be one
    value for every selected element (or a single one, broadcast). *)
Definition setitem_mask (dst : loc) (mask : list bool) (vals : list Z) : M unit :=
  arr <~ read dst ;;
  if (List.length arr =? List.length mask)%nat then
    if (List.length vals =? count_true mask)%nat
    then write dst (scatter arr mask vals)
    else match vals with
         | [v] => write dst (fill arr mask v)
         | _ => raise ValueError
         end
  else raise IndexError.

(** [dst[mask] = v] with a scalar [v]. *)
Definition setitem_mask_scalar (dst : loc) (mask : list bool) (v : Z) : M unit :=
  arr <~ read dst ;;
  if (List.length arr =? List.length mask)%nat then write dst (fill arr mask v)
  else raise IndexError.

(** The state whose store is [h0] followed by the objects [cells]. *)
Definition framed (h0 : list (list Z)) (out : list string)
    (cells : list (list Z)) : state :=
  {| heap := h0 ++ cells; stdout := out |}.

(** [fh[fh == 2] = 5] on the values. *)
Definition remap_wet_snow (fh : list Z) : list Z := fill fh (eq_mask fh 2) 5.

(** [dst[mask] = src[mask]] on the values. *)
Definition assign_where (dst : list Z) (mask : list bool) (src : list Z) : list Z :=
  scatter dst mask (select src mask).

(** The regime assignment of the blend: warm below the melting level,
    cold above it, and cold inside it for a gridded scan. *)
Definition regime_assignment (grid : bool) (meltlev fhwarm fhcold base : list Z)
  : list Z :=
  let w1 := assign_where base (eq_mask meltlev 0) fhwarm in
  let w2 := assign_where w1 (eq_mask meltlev 2) fhcold in
  if grid then assign_where w2 (eq_mask meltlev 1) fhcold else w2.

(** The wet-snow override followed by the two no-data overrides, driven by
    the adjusted melt categorization [fh]. *)
Definition melt_overrides (fh w : list Z) : list Z :=
  fill (fill (fill w (eq_mask fh 5) 5) (eq_mask fh (-1)) (-1)) (eq_mask fh 0) (-1).

(** [fhwarm]: the warm arg-max with 1 and 2 renumbered 6 and 7. *)
Definition renumber_warm (w : list Z) : list Z :=
  let w1 := fill w (eq_mask w 1) 6 in
  fill w1 (eq_mask w1 2) 7.

(** A score array of shape [c_rows :: c_rest]. *)
Record cube : Type := { c_rows : nat; c_rest : list nat; c_data : list fl }.

(** [np.argmax(scores, axis=0) + 1], a new array. *)
Definition argmax_plus1 (scores : cube) : M loc :=
  v <~ lift (argmax_axis0_plus1 (c_rows scores) (c_rest scores) (c_data scores)) ;;
  alloc v.

(** The tuple [melting_layer] returns. *)
Record ml_result : Type := {
  ml_meltlev : list Z;
  ml_melt_z : fl;
  ml_fh : list Z;
  ml_scores : cube
}.

(** The dictionaries [{'ML': .., 'warm': .., 'cold': ..}]. *)
Record named (V : Type) : Type := { ML : V; warm : V; cold : V }.

Inductive returned : Type :=
| Hca (winter_hca : loc)
| HcaScores (winter_hca : loc) (scores : named cube) (hca : named loc).

Definition winter_hca_of (r : returned) : loc :=
  match r with
  | Hca w => w
  | HcaScores w _ _ => w
  end.

Section Externals.

(** Functions and constants of the package that live in other modules:
    [csu_fhc_melt.melting_layer(dz, zdr, kdp, rho, sn, heights,
    scan_type, verbose, band, fdir, azimuths, expected_ML, minRH,
    sn_thresh, nsect)],
    [csu_fhc_winter.csu_fhc_winter(dz, zdr, rho, kdp, use_temp, T, band,
    warm, verbose, fdir)] and [beta_functions.CSV_DIR]. *)
Variable melting_layer :
  option measurand -> option measurand -> option measurand ->
  option measurand -> option measurand -> option measurand ->
  string -> bool -> string -> string -> option measurand ->
  fl -> fl -> fl -> nat -> ml_result.
Variable csu_fhc_winter :
  option measurand -> option measurand -> option measurand ->
  option measurand -> bool -> option measurand -> string ->
  bool -> bool -> string -> cube.

Definition run_winter (dz zdr rho kdp ldr sn T_ : option measurand)
    (use_temp : bool) (band method : string) (sn_thresh expected_ML : fl)
    (nsect : nat) (return_scores : bool) (azimuths : option measurand)
    (verbose : bool) (minRH : fl) (scan_type : string)
    (heights : option measurand) (fdir : string) : M returned :=
  (* The first step is to find the wet snow and the melting layer. *)
  let r := melting_layer dz zdr kdp rho sn heights scan_type verbose band
             fdir azimuths expected_ML minRH sn_thresh nsect in
  meltlev <~ alloc (ml_meltlev r) ;;
  fh <~ alloc (ml_fh r) ;;
  let scores_ML := ml_scores r in
  (* Step 2 is to run the warm layer HID. *)
  let scores_warm :=
    csu_fhc_winter dz zdr None kdp true T_ "C" true verbose fdir in
  fhwarm <~ argmax_plus1 scores_warm ;;
  w <~ read fhwarm ;;
  _ <~ setitem_mask_scalar fhwarm (eq_mask w 1) 6 ;;
  w <~ read fhwarm ;;
  _ <~ setitem_mask_scalar fhwarm (eq_mask w 2) 7 ;;
  let scores_cold :=
    csu_fhc_winter dz zdr None kdp true T_ "C" false verbose fdir in
  fhcold <~ argmax_plus1 scores_cold ;;
  (* Now reset the fh values to correspond to 5 - Wet Snow *)
  f <~ read fh ;;
  _ <~ setitem_mask_scalar fh (eq_mask f 2) 5 ;;
  f <~ read fh ;;
  winter_hca <~ alloc (map (fun _ => (0 - 1)%Z) f) ;;
  (* Now combine them using the melting level idea. *)
  ml <~ read meltlev ;;
  v <~ getitem_mask fhwarm (eq_mask ml 0) ;;
  _ <~ setitem_mask winter_hca (eq_mask ml 0) v ;;
  v <~ getitem_mask fhcold (eq_mask ml 2) ;;
  _ <~ setitem_mask winter_hca (eq_mask ml 2) v ;;
  _ <~ (if String.eqb scan_type "grid" then
          _ <~ (if verbose
                then print "Note: Things get weird at the melting level in a gridded file."
                else ret tt) ;;
          v <~ getitem_mask fhcold (eq_mask ml 1) ;;
          setitem_mask winter_hca (eq_mask ml 1) v
        else ret tt) ;;
  f <~ read fh ;;
  _ <~ setitem_mask_scalar winter_hca (eq_mask f 5) 5 ;;
  f <~ read fh ;;
  _ <~ setitem_mask_scalar winter_hca (eq_mask f (-1)) (-1) ;;
  f <~ read fh ;;
  _ <~ setitem_mask_scalar winter_hca (eq_mask f 0) (-1) ;;
  if return_scores then
    ret (HcaScores winter_hca
           {| ML := scores_ML; warm := scores_warm; cold := scores_cold |}
           {| ML := fh; warm := fhwarm; cold := fhcold |})
  else ret (Hca winter_hca).

End Externals.

(** *** A small configuration to run the blend on

    Stand-ins for the two external functions, on three bins: the
    partitioner reports a warm bin without data, a cold bin with wet snow
    and an ice bin inside the melting level; the warm scores favour their
    second species (rain) and the cold scores their third (dendrites). *)

Definition sample_melting_layer
    (dz zdr kdp rho sn heights : option measurand) (scan_type : string)
    (verbose : bool) (band fdir : string) (azimuths : option measurand)
    (expected_ML minRH sn_thresh : fl) (nsect : nat) : ml_result :=
  {| ml_meltlev := [0; 2; 1]%Z;
     ml_melt_z := Fin 4;
     ml_fh := [0; 2; 1]%Z;
     ml_scores := {| c_rows := 1; c_rest := [3%nat];
                     c_data := [Fin 0; Fin 1; Fin 0] |} |}.

Definition sample_csu_fhc_winter
    (dz zdr rho kdp : option measurand) (use_temp : bool)
    (T_ : option measurand) (band : string) (warm verbose : bool)
    (fdir : string) : cube :=
  if warm
  then {| c_rows := 2; c_rest := [3%nat];
          c_data := [Fin (1 # 10); Fin (1 # 10); Fin (1 # 10);
                     Fin (9 # 10); Fin (9 # 10); Fin (9 # 10)] |}
  else {| c_rows := 4; c_rest := [3%nat];
          c_data := [Fin 0; Fin 0; Fin 0; Fin 0; Fin 0; Fin 0;
                     Fin 1; Fin 1; Fin 1; Fin 0; Fin 0; Fin 0] |}.

Definition initial : state := {| heap := []; stdout := [] |}.

Definition sample_run (return_scores : bool) (scan_type : string)
  : exc (returned * state) :=
  run_winter sample_melting_layer sample_csu_fhc_winter
    None None None None None None None false "S" "linear" (Fin 5) (Fin 4) 36
    return_scores None true (Fin (1 # 2)) scan_type None "csv" initial.

End Winter.

(** ** Notions used to state further properties *)

Module Notions.

Import Summer.

(** The argument of [csu_fhc_summer] that [_populate_vars] pairs with a
    key ([varlist] against [keylist]). *)
Definition passed (dz zdr kdp rho ldr T_ : option measurand) (k : key)
  : option measurand :=
  match k with
  | DZ => dz
  | DR => zdr
  | KD => kdp
  | RH => rho
  | LD => ldr
  | T => T_
  end.

Definition is_given (var : option measurand) : bool :=
  match var with
  | Some _ => true
  | None => false
  end.

Definition finite (x : fl) : bool :=
  match x with
  | Fin _ => true
  | _ => false
  end.

(** A value bound to [test] whose entries are all infinite or NaN. *)
Definition nowhere_finite (v : ndval) : Prop :=
  match v with
  | Scalar x => finite x = false
  | Arr l => Forall (fun x => finite x = false) l
  end.




End Notions.

(** * Properties *)

(** ** The scoring primitive *)

Module BetaFacts.

Import Beta.
Local Open Scope R_scope.

Lemma Rcmp_Lt (x y : R) : x < y -> Rcmp x y = Lt.
Proof.
  intros Hxy. unfold Rcmp.
  destruct (total_order_T x y) as [[Hlt | Heq] | Hgt]; try reflexivity; lra.
Qed.

Lemma Rcmp_Eq (x y : R) : x = y -> Rcmp x y = Eq.
Proof.
  intros Hxy. unfold Rcmp.
  destruct (total_order_T x y) as [[Hlt | Heq] | Hgt]; try reflexivity; lra.
Qed.

Lemma Rcmp_Gt (x y : R) : y < x -> Rcmp x y = Gt.
Proof.
  intros Hxy. unfold Rcmp.
  destruct (total_order_T x y) as [[Hlt | Heq] | Hgt]; try reflexivity; lra.
Qed.

Lemma sgn_nonzero (a : R) : a <> 0 -> sgn a = Lt \/ sgn a = Gt.
Proof.
  intros Ha. unfold sgn. simpl.
  destruct (Rtotal_order a 0) as [Hlt | [Heq | Hgt]].
  - left. now apply Rcmp_Lt.
  - contradiction.
  - right. now apply Rcmp_Gt.
Qed.

(** [(x - m) / a] is an ordinary quotient when [a] is not zero. *)
Lemma quotient_finite (x a m : R) :
  a <> 0 -> xdiv (xsub (Fin x) (Fin m)) (Fin a) = Fin ((x - m) / a).
Proof.
  intros Ha. simpl.
  destruct (sgn_nonzero Ha) as [Hs | Hs]; unfold sgn in Hs; simpl in Hs;
    rewrite Hs; reflexivity.
Qed.

Lemma one_over_one_plus (p : R) :
  0 <= p -> xdiv (Fin 1) (xadd (Fin 1) (Fin p)) = Fin (1 / (1 + p)).
Proof.
  intros Hp. simpl. unfold sgn. simpl.
  rewrite (Rcmp_Gt (x := 1 + p) (y := 0)) by lra. reflexivity.
Qed.

(** Away from the centre the base of the power is a positive square. *)
Lemma hid_beta1_off_centre (x a b m : R) :
  a <> 0 -> x <> m ->
  hid_beta1 (Fin x) a b m = Fin (1 / (1 + Rpower (((x - m) / a) ^ 2) b)).
Proof.
  intros Ha Hx. unfold hid_beta1.
  rewrite (quotient_finite x m Ha).
  set (q := (x - m) / a).
  assert (Hq : q <> 0).
  { unfold q. intros Hq0. apply Hx.
    apply (Rmult_eq_compat_r a) in Hq0.
    unfold Rdiv in Hq0. rewrite Rmult_assoc, Rinv_l, Rmult_1_r, Rmult_0_l in Hq0 by assumption.
    lra. }
  assert (Hpos : 0 < q * q) by (apply Rsqr_pos_lt in Hq; exact Hq).
  unfold xsq. simpl xmul. unfold xpow, sgn. simpl ncmp. simpl n0.
  rewrite (Rcmp_Gt Hpos).
  replace (q ^ 2) with (q * q) by ring.
  apply one_over_one_plus.
  left. apply exp_pos.
Qed.

(** At the centre the base is zero and the exponent decides. *)
Lemma base_at_centre (a b m : R) :
  a <> 0 ->
  xpow (xsq (xdiv (xsub (Fin m) (Fin m)) (Fin a))) b =
  match Rcmp b 0 with Gt => Fin 0 | Eq => Fin 1 | Lt => PInf end.
Proof.
  intros Ha. rewrite (quotient_finite m m Ha).
  unfold xsq. simpl xmul. unfold xpow, sgn. simpl ncmp. simpl n0.
  rewrite Rcmp_Eq; [reflexivity |].
  unfold Rdiv. rewrite Rminus_diag. ring.
Qed.

Lemma hid_beta1_centre_pos (a b m : R) :
  a <> 0 -> 0 < b -> hid_beta1 (Fin m) a b m = Fin 1.
Proof.
  intros Ha Hb. unfold hid_beta1. rewrite (base_at_centre b m Ha).
  rewrite (Rcmp_Gt Hb). rewrite one_over_one_plus by lra.
  f_equal; lra.
Qed.

Lemma hid_beta1_centre_zero (a m : R) :
  a <> 0 -> hid_beta1 (Fin m) a 0 m = Fin (1 / 2).
Proof.
  intros Ha. unfold hid_beta1. rewrite (base_at_centre 0 m Ha).
  rewrite Rcmp_Eq by reflexivity. rewrite one_over_one_plus by lra.
  f_equal; lra.
Qed.

Lemma hid_beta1_centre_neg (a b m : R) :
  a <> 0 -> b < 0 -> hid_beta1 (Fin m) a b m = Fin 0.
Proof.
  intros Ha Hb. unfold hid_beta1. rewrite (base_at_centre b m Ha).
  rewrite (Rcmp_Lt Hb). reflexivity.
Qed.

Lemma hid_beta1_formula (x a b m : R) :
  a <> 0 -> hid_beta1 (Fin x) a b m = Fin (beta_formula x a b m).
Proof.
  intros Ha. unfold beta_formula.
  destruct (Req_dec_T x m) as [Heq | Hne].
  - subst x.
    destruct (Rtotal_order b 0) as [Hlt | [Hz | Hgt]].
    + rewrite (Rcmp_Lt Hlt). now apply hid_beta1_centre_neg.
    + subst b. rewrite Rcmp_Eq by reflexivity. now apply hid_beta1_centre_zero.
    + rewrite (Rcmp_Gt Hgt). now apply hid_beta1_centre_pos.
  - now apply hid_beta1_off_centre.
Qed.

Lemma hid_beta1_in_unit_interval (x a b m : R) :
  a <> 0 -> 0 < b ->
  exists s, hid_beta1 (Fin x) a b m = Fin s /\ 0 < s <= 1.
Proof.
  intros Ha Hb.
  destruct (Req_dec_T x m) as [Heq | Hne].
  - subst x. exists 1. split; [now apply hid_beta1_centre_pos | lra].
  - exists (1 / (1 + Rpower (((x - m) / a) ^ 2) b)).
    split; [now apply hid_beta1_off_centre |].
    pose proof (exp_pos (b * ln (((x - m) / a) ^ 2))) as Hp.
    fold (Rpower (((x - m) / a) ^ 2) b) in Hp.
    set (p := Rpower (((x - m) / a) ^ 2) b) in *.
    assert (Hden : 0 < 1 + p) by lra.
    split.
    + apply Rdiv_lt_0_compat; lra.
    + apply (Rmult_le_reg_r (1 + p)); [exact Hden |].
      unfold Rdiv. rewrite Rmult_assoc, Rinv_l by lra. lra.
Qed.






(** *** The range of the scores, in rounded arithmetic *)

(** The exact embedding is the rounded one at the format that rounds
    nothing. *)
Lemma hid_beta1_exact (x : ext R) (a b m : R) :
  BetaFloat.hid_beta1 (F := BetaFloat.exact) x a b m = hid_beta1 x a b m.
Proof.
  assert (Hround : forall y : ext R, BetaFloat.round (F := BetaFloat.exact) y = y).
  { intros [r | | |]; reflexivity. }
  assert (Hpow : forall (y : ext R) (e : R),
             BetaFloat.fpowx (F := BetaFloat.exact) y e = xpow y e).
  { intros [r | | |] e; try reflexivity.
    unfold BetaFloat.fpowx, xpow. destruct (sgn r); reflexivity. }
  unfold BetaFloat.hid_beta1, hid_beta1, BetaFloat.fdiv, BetaFloat.fadd,
    BetaFloat.fsq, BetaFloat.fsub.
  rewrite !Hround, Hpow. reflexivity.
Qed.

Lemma exact_rounding : BetaFloat.Rounding BetaFloat.exact.
Proof.
  split; simpl.
  - intros r s Hrs. exact Hrs.
  - reflexivity.
  - reflexivity.
  - intros s b _. left. apply exp_pos.
Qed.

Lemma overflow_rnd_in (M r r' : R) :
  r = r' -> - M <= r' <= M -> BetaFloat.overflow_rnd M r = Fin r'.
Proof.
  intros -> [Hlo Hhi]. unfold BetaFloat.overflow_rnd, Rcmp.
  destruct (total_order_T r' M) as [[H1 | H1] | H1];
    destruct (total_order_T r' (- M)) as [[H2 | H2] | H2];
    try reflexivity; exfalso; lra.
Qed.

Lemma overflow_rnd_over (M r : R) :
  M < r -> BetaFloat.overflow_rnd M r = PInf.
Proof.
  intros Hr. unfold BetaFloat.overflow_rnd. rewrite (Rcmp_Gt Hr). reflexivity.
Qed.

Lemma overflow_rnd_monotone (M r s : R) :
  0 <= M -> r <= s ->
  BetaFloat.ext_le (BetaFloat.overflow_rnd M r) (BetaFloat.overflow_rnd M s).
Proof.
  intros HM Hrs. unfold BetaFloat.overflow_rnd, Rcmp.
  destruct (total_order_T r M) as [[H1 | H1] | H1];
    destruct (total_order_T r (- M)) as [[H2 | H2] | H2];
    destruct (total_order_T s M) as [[H3 | H3] | H3];
    destruct (total_order_T s (- M)) as [[H4 | H4] | H4];
    simpl; try exact I; try lra.
Qed.

(** A format with overflow satisfies the laws as soon as 1 is in its
    range. *)
Lemma overflow_rounding (M : R) :
  1 <= M -> BetaFloat.Rounding (BetaFloat.overflow_at M).
Proof.
  intros HM. split; simpl.
  - intros r s Hrs. apply overflow_rnd_monotone; lra.
  - apply overflow_rnd_in; [reflexivity | lra].
  - apply overflow_rnd_in; [reflexivity | lra].
  - intros s b _.
    assert (Hpos : 0 <= Rpower s b) by (left; apply exp_pos).
    assert (H0M : 0 <= M) by lra.
    pose proof (overflow_rnd_monotone H0M Hpos) as Hle.
    rewrite (@overflow_rnd_in M 0 0 eq_refl) in Hle by lra.
    exact Hle.
Qed.

Lemma binary64_range_rounding : BetaFloat.Rounding BetaFloat.binary64_range.
Proof. apply overflow_rounding. apply pow_R1_Rle. lra. Qed.

Section Rounded.

Context {F : BetaFloat.Format} {HF : BetaFloat.Rounding F}.

Lemma rnd_not_nan (r : R) : BetaFloat.rnd r <> NaN.
Proof.
  intros Hnan.
  pose proof (BetaFloat.rnd_monotone (Rle_refl r)) as Hle.
  rewrite Hnan in Hle. exact Hle.
Qed.

Lemma rnd_nonneg (r : R) :
  0 <= r -> BetaFloat.ext_le (Fin 0) (BetaFloat.rnd r).
Proof.
  intros Hr. rewrite <- BetaFloat.rnd_0. now apply BetaFloat.rnd_monotone.
Qed.

Lemma rnd_at_least_one (r : R) :
  1 <= r -> BetaFloat.ext_le (Fin 1) (BetaFloat.rnd r).
Proof.
  intros Hr. rewrite <- BetaFloat.rnd_1. now apply BetaFloat.rnd_monotone.
Qed.

Lemma rnd_at_most_one (r : R) :
  r <= 1 -> BetaFloat.ext_le (BetaFloat.rnd r) (Fin 1).
Proof.
  intros Hr. rewrite <- BetaFloat.rnd_1. now apply BetaFloat.rnd_monotone.
Qed.

(** The rounded quotient [(x - m)/a] is a number or an infinity. *)
Lemma quotient_not_nan (x a m : R) :
  a <> 0 ->
  BetaFloat.fdiv (BetaFloat.fsub (Fin x) (Fin m)) (Fin a) <> NaN.
Proof.
  intros Ha. unfold BetaFloat.fsub. simpl xsub. simpl BetaFloat.round.
  pose proof (rnd_not_nan (x - m)) as Hd.
  unfold BetaFloat.fdiv.
  destruct (BetaFloat.rnd (x - m)) as [d | | |]; [| | | contradiction].
  - simpl xdiv.
    destruct (sgn_nonzero Ha) as [Hs | Hs]; unfold sgn in Hs; simpl in Hs;
      rewrite Hs; simpl; apply rnd_not_nan.
  - simpl xdiv. destruct (Rcmp a 0); simpl; discriminate.
  - simpl xdiv. destruct (Rcmp a 0); simpl; discriminate.
Qed.

(** Its rounded square is not negative. *)
Lemma fsq_nonneg (q : ext R) :
  q <> NaN -> BetaFloat.ext_le (Fin 0) (BetaFloat.fsq q).
Proof.
  intros Hq. unfold BetaFloat.fsq, xsq.
  destruct q as [r | | |]; [| exact I | exact I | contradiction].
  simpl. apply rnd_nonneg. apply Rle_0_sqr.
Qed.

(** Nor is the power of the square, for a positive exponent. *)
Lemma fpowx_nonneg (s : ext R) (b : R) :
  0 < b -> BetaFloat.ext_le (Fin 0) s ->
  BetaFloat.ext_le (Fin 0) (BetaFloat.fpowx s b).
Proof.
  intros Hb Hs. unfold BetaFloat.fpowx.
  destruct s as [r | | |]; simpl in Hs; try contradiction.
  - unfold xpow, sgn. simpl ncmp. simpl n0.
    destruct Hs as [Hpos | Hzero].
    + rewrite (Rcmp_Gt Hpos). now apply BetaFloat.fpow_nonneg.
    + rewrite (Rcmp_Eq (eq_sym Hzero)), (Rcmp_Gt Hb). simpl. lra.
  - unfold xpow, sgn. simpl ncmp. simpl n0. rewrite (Rcmp_Gt Hb). exact I.
Qed.

(** So the denominator is at least 1. *)
Lemma fadd_one_at_least_one (p : ext R) :
  BetaFloat.ext_le (Fin 0) p ->
  BetaFloat.ext_le (Fin 1) (BetaFloat.fadd (Fin 1) p).
Proof.
  intros Hp. unfold BetaFloat.fadd.
  destruct p as [r | | |]; simpl in Hp; try contradiction.
  - simpl. apply rnd_at_least_one. lra.
  - exact I.
Qed.

(** And its rounded inverse lies between 0 and 1, both included. *)
Lemma fdiv_one_in_unit_interval (d : ext R) :
  BetaFloat.ext_le (Fin 1) d ->
  exists s : R, BetaFloat.fdiv (Fin 1) d = Fin s /\ 0 <= s <= 1.
Proof.
  intros Hd. unfold BetaFloat.fdiv.
  destruct d as [r | | |]; simpl in Hd; try contradiction.
  - simpl xdiv. unfold sgn. simpl ncmp. simpl n0.
    rewrite (Rcmp_Gt (x := r) (y := 0)) by lra. simpl BetaFloat.round.
    assert (Hinv : 0 <= 1 / r <= 1).
    { split.
      - left. apply Rdiv_lt_0_compat; lra.
      - apply (Rmult_le_reg_r r); [lra |].
        unfold Rdiv. rewrite Rmult_assoc, Rinv_l by lra. lra. }
    pose proof (rnd_nonneg (proj1 Hinv)) as Hlo.
    pose proof (rnd_at_most_one (proj2 Hinv)) as Hhi.
    destruct (BetaFloat.rnd (1 / r)) as [s | | |]; simpl in Hlo, Hhi;
      try contradiction.
    exists s. split; [reflexivity | lra].
  - simpl. exists 0. split; [apply BetaFloat.rnd_0 | lra].
Qed.

Lemma hid_beta1_rounded_in_unit_interval (x a b m : R) :
  a <> 0 -> 0 < b ->
  exists s : R,
    BetaFloat.hid_beta1 (Fin x) a b m = Fin s /\ 0 <= s <= 1.
Proof.
  intros Ha Hb. unfold BetaFloat.hid_beta1.
  apply fdiv_one_in_unit_interval, fadd_one_at_least_one, fpowx_nonneg;
    [exact Hb |].
  apply fsq_nonneg. now apply quotient_not_nan.
Qed.

(** At the centre every operation is exact. *)
Lemma hid_beta1_rounded_centre (a b m : R) :
  a <> 0 -> 0 < b -> BetaFloat.hid_beta1 (Fin m) a b m = Fin 1.
Proof.
  intros Ha Hb. unfold BetaFloat.hid_beta1.
  assert (Hsub : BetaFloat.fsub (Fin m) (Fin m) = Fin 0).
  { unfold BetaFloat.fsub. simpl.
    replace (m - m) with 0 by lra. apply BetaFloat.rnd_0. }
  rewrite Hsub.
  assert (Hdiv : BetaFloat.fdiv (Fin 0) (Fin a) = Fin 0).
  { unfold BetaFloat.fdiv. simpl xdiv.
    destruct (sgn_nonzero Ha) as [Hs | Hs]; unfold sgn in Hs; simpl in Hs;
      rewrite Hs; simpl;
      (replace (0 / a) with 0 by (unfold Rdiv; ring)); apply BetaFloat.rnd_0. }
  rewrite Hdiv.
  assert (Hsq : BetaFloat.fsq (Fin 0) = Fin 0).
  { unfold BetaFloat.fsq, xsq. simpl.
    replace (0 * 0) with 0 by ring. apply BetaFloat.rnd_0. }
  rewrite Hsq.
  assert (Hpow : BetaFloat.fpowx (Fin 0) b = Fin 0).
  { unfold BetaFloat.fpowx, xpow, sgn. simpl ncmp. simpl n0.
    rewrite (Rcmp_Eq (x := 0) (y := 0)) by reflexivity.
    rewrite (Rcmp_Gt Hb). reflexivity. }
  rewrite Hpow.
  assert (Hadd : BetaFloat.fadd (Fin 1) (Fin 0) = Fin 1).
  { unfold BetaFloat.fadd. simpl.
    replace (1 + 0) with 1 by ring. apply BetaFloat.rnd_1. }
  rewrite Hadd.
  unfold BetaFloat.fdiv. simpl xdiv. unfold sgn. simpl ncmp. simpl n0.
  rewrite (Rcmp_Gt (x := 1) (y := 0)) by lra. simpl.
  replace (1 / 1) with 1 by (unfold Rdiv; rewrite Rinv_1; ring).
  apply BetaFloat.rnd_1.
Qed.

End Rounded.

(** In a format that overflows beyond [M], an input whose square is
    beyond [M] scores exactly 0. *)
Lemma hid_beta1_overflow (M x : R) :
  1 <= M -> 0 <= x <= M -> M < x * x ->
  BetaFloat.hid_beta1 (F := BetaFloat.overflow_at M) (Fin x) 1 1 0 = Fin 0.
Proof.
  intros HM Hx Hsq. unfold BetaFloat.hid_beta1.
  assert (Hsub : BetaFloat.fsub (F := BetaFloat.overflow_at M) (Fin x) (Fin 0)
                 = Fin x).
  { unfold BetaFloat.fsub. simpl. apply overflow_rnd_in; lra. }
  rewrite Hsub.
  assert (Hdiv : BetaFloat.fdiv (F := BetaFloat.overflow_at M) (Fin x) (Fin 1)
                 = Fin x).
  { unfold BetaFloat.fdiv. simpl xdiv. unfold sgn. simpl ncmp. simpl n0.
    rewrite (Rcmp_Gt (x := 1) (y := 0)) by lra. simpl.
    apply overflow_rnd_in; [unfold Rdiv; rewrite Rinv_1; ring | lra]. }
  rewrite Hdiv.
  assert (Hover : BetaFloat.fsq (F := BetaFloat.overflow_at M) (Fin x) = PInf).
  { unfold BetaFloat.fsq, xsq. simpl. now apply overflow_rnd_over. }
  rewrite Hover.
  unfold BetaFloat.fpowx, xpow, sgn. simpl ncmp. simpl n0.
  rewrite (Rcmp_Gt (x := 1) (y := 0)) by lra.
  unfold BetaFloat.fadd, BetaFloat.fdiv. simpl.
  apply overflow_rnd_in; [reflexivity | lra].
Qed.

(** With the exponent 0 the score at the centre is [1/(1 + 0^0) = 1/2]. *)
Lemma hid_beta1_zero_exponent (M : R) :
  2 <= M ->
  BetaFloat.hid_beta1 (F := BetaFloat.overflow_at M) (Fin 0) 1 0 0
  = Fin (1 / 2).
Proof.
  intros HM. unfold BetaFloat.hid_beta1.
  assert (Hsub : BetaFloat.fsub (F := BetaFloat.overflow_at M) (Fin 0) (Fin 0)
                 = Fin 0).
  { unfold BetaFloat.fsub. simpl. apply overflow_rnd_in; lra. }
  rewrite Hsub.
  assert (Hdiv : BetaFloat.fdiv (F := BetaFloat.overflow_at M) (Fin 0) (Fin 1)
                 = Fin 0).
  { unfold BetaFloat.fdiv. simpl xdiv. unfold sgn. simpl ncmp. simpl n0.
    rewrite (Rcmp_Gt (x := 1) (y := 0)) by lra. simpl.
    apply overflow_rnd_in; [unfold Rdiv; ring | lra]. }
  rewrite Hdiv.
  assert (Hsq : BetaFloat.fsq (F := BetaFloat.overflow_at M) (Fin 0) = Fin 0).
  { unfold BetaFloat.fsq, xsq. simpl. apply overflow_rnd_in; [ring | lra]. }
  rewrite Hsq.
  assert (Hpow : BetaFloat.fpowx (F := BetaFloat.overflow_at M) (Fin 0) 0
                 = Fin 1).
  { unfold BetaFloat.fpowx, xpow, sgn. simpl ncmp. simpl n0.
    rewrite (Rcmp_Eq (x := 0) (y := 0)) by reflexivity. reflexivity. }
  rewrite Hpow.
  assert (Hadd : BetaFloat.fadd (F := BetaFloat.overflow_at M) (Fin 1) (Fin 1)
                 = Fin 2).
  { unfold BetaFloat.fadd. simpl. apply overflow_rnd_in; lra. }
  rewrite Hadd.
  unfold BetaFloat.fdiv. simpl xdiv. unfold sgn. simpl ncmp. simpl n0.
  rewrite (Rcmp_Gt (x := 2) (y := 0)) by lra. simpl.
  apply overflow_rnd_in; [reflexivity | lra].
Qed.

(** C8, as amended: in the arithmetic of any floating-point format, for
    [a <> 0] and a positive exponent [b], every score [hid_beta] returns
    on finite inputs lies in the closed interval [0, 1], and the score
    at the centre [m] is exactly 1.  The lower bound is not strict: the
    score is 0 where the square or its power overflows. *)
Theorem hid_beta_rounded_range_and_peak :
  forall (F : BetaFloat.Format),
    BetaFloat.Rounding F ->
    forall (xs : list R) (a b m : R),
      a <> 0 -> 0 < b ->
      Forall (fun y => exists s, y = Fin s /\ 0 <= s <= 1)
             (BetaFloat.hid_beta (map (@Fin R) xs) a b m) /\
      BetaFloat.hid_beta [Fin m] a b m = [Fin 1].
Proof.
  intros F HF xs a b m Ha Hb. split.
  - unfold BetaFloat.hid_beta. rewrite map_map. apply Forall_forall.
    intros y Hy. apply in_map_iff in Hy. destruct Hy as [x [Hx _]].
    subst y. now apply hid_beta1_rounded_in_unit_interval.
  - unfold BetaFloat.hid_beta. simpl map. f_equal.
    now apply hid_beta1_rounded_centre.
Qed.

Lemma hid_beta_rounded_range_and_peak_witness :
  Forall (fun y => exists s, y = Fin s /\ 0 <= s <= 1)
         (BetaFloat.hid_beta (F := BetaFloat.binary64_range)
            (map (@Fin R) [1; 3]) 2 1 0) /\
  BetaFloat.hid_beta (F := BetaFloat.binary64_range) [Fin 0] 2 1 0 = [Fin 1].
Proof.
  apply (@hid_beta_rounded_range_and_peak BetaFloat.binary64_range
           binary64_range_rounding [1; 3] 2 1 0); lra.
Defined.

(** C8 as stated fails twice over in the range of binary64, for parameter
    sets with [a <> 0].  At [x = 2^700], [a = 1], [b = 1], [m = 0] the
    square [2^1400] overflows to infinity and the score is
    [1/(1 + inf) = 0], outside the half-open interval (0, 1].  With
    [b = 0] the score at the centre is [1/(1 + 0^0) = 1/2], not 1. *)
Lemma hid_beta_range_and_peak_fail :
  1 <> 0 /\
  BetaFloat.hid_beta (F := BetaFloat.binary64_range) [Fin (2 ^ 700)] 1 1 0
  = [Fin 0] /\
  ~ Forall (fun y => exists s, y = Fin s /\ 0 < s <= 1)
      (BetaFloat.hid_beta (F := BetaFloat.binary64_range)
         [Fin (2 ^ 700)] 1 1 0) /\
  BetaFloat.hid_beta (F := BetaFloat.binary64_range) [Fin 0] 1 0 0
  = [Fin (1 / 2)] /\
  BetaFloat.hid_beta (F := BetaFloat.binary64_range) [Fin 0] 1 0 0
  <> [Fin 1].
Proof.
  assert (HM1 : 1 <= 2 ^ 1024) by (apply pow_R1_Rle; lra).
  assert (HM2 : 2 <= 2 ^ 1024).
  { replace 2 with (2 ^ 1) at 1 by ring. apply Rle_pow; [lra | lia]. }
  assert (Hx : 0 <= 2 ^ 700 <= 2 ^ 1024).
  { split; [apply pow_le; lra | apply Rle_pow; [lra | lia]]. }
  assert (Hsq : 2 ^ 1024 < 2 ^ 700 * 2 ^ 700).
  { rewrite <- pow_add. apply Rlt_pow; [lra | lia]. }
  assert (Hover : BetaFloat.hid_beta (F := BetaFloat.binary64_range)
                    [Fin (2 ^ 700)] 1 1 0 = [Fin 0]).
  { unfold BetaFloat.hid_beta, BetaFloat.binary64_range. cbn [map].
    f_equal. exact (hid_beta1_overflow HM1 Hx Hsq). }
  assert (Hhalf : BetaFloat.hid_beta (F := BetaFloat.binary64_range)
                    [Fin 0] 1 0 0 = [Fin (1 / 2)]).
  { unfold BetaFloat.hid_beta, BetaFloat.binary64_range. cbn [map].
    f_equal. exact (hid_beta1_zero_exponent HM2). }
  split; [lra |]. split; [exact Hover |]. split.
  - rewrite Hover. intros Hall. apply Forall_inv in Hall.
    destruct Hall as [s [Heq Hs]]. injection Heq as Heq. lra.
  - split; [exact Hhalf |].
    rewrite Hhalf. intros Heq. injection Heq as Heq. lra.
Qed.

End BetaFacts.

(** ** The summer classifier *)

Unset Implicit Arguments.

Module SummerFacts.

Import Summer.
Local Open Scope nat_scope.

(** *** The arg-max stays inside the column *)

Lemma argmax_from_bound (l : list fl) :
  forall (mp : fl) (idx i : nat),
    idx < i -> argmax_from mp idx i l < i + List.length l.
Proof.
  induction l as [| x l IH]; intros mp idx i Hlt.
  - simpl. destruct (is_nan mp); lia.
  - simpl. destruct (is_nan mp); [lia |].
    destruct (not_le x mp).
    + specialize (IH x i (S i)). lia.
    + specialize (IH mp idx (S i)). lia.
Qed.

Lemma argmax_lt (l : list fl) : l <> [] -> argmax l < List.length l.
Proof.
  destruct l as [| x l]; [congruence |]. intros _.
  unfold argmax. pose proof (argmax_from_bound l x 0 1). simpl. lia.
Qed.

Lemma column_length (n P : nat) (dat : list fl) (j : nat) :
  List.length (column n P dat j) = n.
Proof. unfold column. now rewrite length_map, length_seq. Qed.

Lemma reshape_ok (dat : list fl) (sh : list nat) (c : list nat * list fl) :
  reshape dat sh = Ok c -> c = (sh, dat) /\ prod_shape sh = List.length dat.
Proof.
  unfold reshape. destruct (prod_shape sh =? List.length dat) eqn:E; [| discriminate].
  intros Hc. inversion Hc. split; [reflexivity | now apply Nat.eqb_eq].
Qed.

Lemma argmax_axis0_plus1_ok (n : nat) (rest : list nat) (dat : list fl)
    (hid : list Z) :
  argmax_axis0_plus1 n rest dat = Ok hid ->
  0 < n /\
  hid = map (fun j => (Z.of_nat (argmax (column n (prod_shape rest) dat j)) + 1)%Z)
            (seq 0 (prod_shape rest)).
Proof.
  unfold argmax_axis0_plus1. destruct n as [| n]; [discriminate |].
  intros Hh. inversion Hh. split; [lia | reflexivity].
Qed.

(** *** What the steps of [csu_fhc_summer] can return *)

Lemma get_weight_sum_recognised (fhc_vars : dict Z) (weights : weight_table)
    (method : string) :
  str_in "hybrid"%string method = true \/ str_in "linear"%string method = true ->
  snd (_get_weight_sum fhc_vars weights method) <> Ok None.
Proof.
  intros Hm. unfold _get_weight_sum.
  destruct (str_in "hybrid"%string method).
  - cbv zeta. unfold snd, bind.
    match goal with |- context [mapM ?f ?l] => destruct (mapM f l) end;
      discriminate.
  - destruct Hm as [Hm | Hm]; [discriminate |]. rewrite Hm.
    cbv zeta. unfold snd, bind.
    match goal with |- context [mapM ?f ?l] => destruct (mapM f l) end;
      discriminate.
Qed.

Lemma get_weight_sum_unrecognised (fhc_vars : dict Z) (weights : weight_table)
    (method : string) :
  str_in "hybrid"%string method = false -> str_in "linear"%string method = false ->
  _get_weight_sum fhc_vars weights method =
  (["No weighting method defined, use hybrid or linear"%string], Ok None).
Proof. intros Hh Hl. unfold _get_weight_sum. now rewrite Hh, Hl. Qed.

(** With reflectivity present [_populate_vars] returns, and every key of
    [fhc_vars] is set. *)
Lemma populate_vars_some (v : measurand) (zdr kdp rho ldr T_ : option measurand) :
  exists radar_data fhc_vars,
    _populate_vars (Some v) zdr kdp rho ldr T_ =
    Ok (radar_data, fhc_vars, np_shape v, np_size v) /\
    (forall k, exists z, fhc_vars k = Some z).
Proof.
  destruct zdr, kdp, rho, ldr, T_;
    (eexists; eexists; split; [reflexivity |]);
    intros k; destruct k; simpl; eexists; reflexivity.
Qed.

Lemma get_pol_flag_total (fhc_vars : dict Z) :
  (forall k, exists z, fhc_vars k = Some z) ->
  exists b, _get_pol_flag fhc_vars = Ok b.
Proof.
  intros Hall. unfold _get_pol_flag, getd.
  destruct (Hall DR) as [z1 H1], (Hall KD) as [z2 H2],
           (Hall LD) as [z3 H3], (Hall RH) as [z4 H4].
  rewrite H1. simpl. destruct (truthy z1); [now eexists |].
  rewrite H2. simpl. destruct (truthy z2); [now eexists |].
  rewrite H3. simpl. destruct (truthy z3); [now eexists |].
  rewrite H4. simpl. now eexists.
Qed.

Lemma populate_vars_no_pol (v : measurand) (T_ : option measurand) :
  exists radar_data fhc_vars,
    _populate_vars (Some v) None None None None T_ =
    Ok (radar_data, fhc_vars, np_shape v, np_size v) /\
    fhc_vars DR = Some 0%Z /\ fhc_vars KD = Some 0%Z /\
    fhc_vars LD = Some 0%Z /\ fhc_vars RH = Some 0%Z /\
    (forall k, exists z, fhc_vars k = Some z).
Proof.
  destruct T_;
    (eexists; eexists; split; [reflexivity |]);
    repeat (split; [reflexivity |]);
    intros k; destruct k; simpl; eexists; reflexivity.
Qed.

Lemma setitem_total (fhc_vars : dict Z) (k0 : key) (z0 : Z) :
  (forall k, exists z, fhc_vars k = Some z) ->
  forall k, exists z, setitem fhc_vars k0 z0 k = Some z.
Proof.
  intros Hall k. unfold setitem.
  destruct (key_eqb k k0); [now eexists | apply Hall].
Qed.

Lemma mapM_total {A B : Type} (f : A -> exc B) (l : list A) :
  (forall x, exists y, f x = Ok y) -> exists ys, mapM f l = Ok ys.
Proof.
  intros Hf. induction l as [| x l [ys IH]].
  - now eexists.
  - destruct (Hf x) as [y Hy]. simpl. rewrite Hy, IH. simpl. now eexists.
Qed.

Lemma linear_not_hybrid : str_in "hybrid"%string "linear"%string = false.
Proof. reflexivity. Qed.

Lemma linear_is_linear : str_in "linear"%string "linear"%string = true.
Proof. reflexivity. Qed.

Lemma get_weight_sum_linear (fhc_vars : dict Z) (weights : weight_table) :
  (forall k, exists z, fhc_vars k = Some z) ->
  exists weight_sum,
    _get_weight_sum fhc_vars weights "linear" =
    ([], Ok (Some (weight_sum, [DR; KD; RH; LD; T; DZ]))).
Proof.
  intros Hall. unfold _get_weight_sum.
  rewrite linear_not_hybrid, linear_is_linear.
  destruct (mapM_total
              (fun k => v <- getd fhc_vars k ;; Ok (xmul (of_int v) (weights k)))
              [DR; KD; RH; LD; T; DZ]) as [ws Hws].
  { intros k. destruct (Hall k) as [z Hz]. unfold getd. rewrite Hz.
    simpl. now eexists. }
  rewrite Hws. simpl. now eexists.
Qed.

Section Externals.

Variable get_mbf_sets_summer : bool -> bool -> nat -> fl -> string -> mbf_sets.
Variable hid_beta_f : nat -> list fl -> fl -> fl -> fl -> list fl.
Variable get_hid_traps : nat -> list fl -> list fl.

(** In the linear branch without polarimetric variables an iteration
    leaves the local [test] as it found it, so the first
    [test_list.append(test)] reads an unbound local. *)
Lemma test_loop_linear_no_pol (fhc_vars : dict Z) (weights : weight_table)
    (radar_data : dict (list fl)) (sets : key -> mbf) (varlist : list key)
    (weight_sum : fl) (trap_flag use_temp : bool) (sz : nat)
    (c : nat) (cs : list nat) (test_list : list ndval) :
  test_loop hid_beta_f get_hid_traps fhc_vars weights radar_data sets
    varlist weight_sum false trap_flag use_temp "linear" sz
    (c :: cs) None test_list = Raise UnboundLocalError.
Proof. reflexivity. Qed.

(** C7: with reflectivity absent ([dz is None]) [csu_fhc_summer]
    prints its diagnostic and returns [None] at once, whatever the
    other arguments: nothing is raised and nothing is computed. *)
Theorem csu_fhc_summer_without_dz_returns_none :
  forall (use_temp : bool) (weights : weight_table) (method : string)
         (zdr ldr kdp rho T_ : option measurand)
         (plot_flag use_trap : bool) (n_types : nat) (temp_factor : fl)
         (band : string) (return_scores : bool),
    csu_fhc_summer get_mbf_sets_summer hid_beta_f get_hid_traps
      use_temp weights method None zdr ldr kdp rho T_
      plot_flag use_trap n_types temp_factor band return_scores =
    (["FHC fail, no reflectivity field"%string], Ok None).
Proof. reflexivity. Qed.

(** C6, as amended: when the method string contains neither ['hybrid']
    nor ['linear'] as a substring, [csu_fhc_summer] returns [None],
    with or without reflectivity, and produces no partial result. *)
Theorem csu_fhc_summer_unrecognised_method_returns_none :
  forall (use_temp : bool) (weights : weight_table) (method : string)
         (dz zdr ldr kdp rho T_ : option measurand)
         (plot_flag use_trap : bool) (n_types : nat) (temp_factor : fl)
         (band : string) (return_scores : bool),
    str_in "hybrid"%string method = false ->
    str_in "linear"%string method = false ->
    snd (csu_fhc_summer get_mbf_sets_summer hid_beta_f get_hid_traps
           use_temp weights method dz zdr ldr kdp rho T_
           plot_flag use_trap n_types temp_factor band return_scores) =
    Ok None.
Proof.
  intros use_temp weights method dz zdr ldr kdp rho T_ plot_flag use_trap
         n_types temp_factor band return_scores Hh Hl.
  destruct dz as [v |]; [| reflexivity].
  destruct (populate_vars_some v zdr kdp rho ldr T_)
    as (radar_data & fhc_vars & Hpop & Hall).
  destruct (get_pol_flag_total fhc_vars Hall) as [pol_flag Hpol].
  unfold csu_fhc_summer. rewrite Hpop, Hpol.
  rewrite (get_weight_sum_unrecognised _ _ _ Hh Hl). reflexivity.
Qed.

(** C2, as amended: [csu_fhc_summer] compares the weight sum with
    [None] only, which [_get_weight_sum] returns for an unrecognised
    method.  With reflectivity present and a method containing
    ['hybrid'] or ['linear'] the call never returns [None], whatever the
    weights, a zero weight sum included: the per-species computation is
    carried out and the outcome is an array or an exception. *)
Theorem csu_fhc_summer_recognised_method_never_none :
  forall (use_temp : bool) (weights : weight_table) (method : string)
         (v : measurand) (zdr ldr kdp rho T_ : option measurand)
         (plot_flag use_trap : bool) (n_types : nat) (temp_factor : fl)
         (band : string) (return_scores : bool),
    str_in "hybrid"%string method = true \/
    str_in "linear"%string method = true ->
    snd (csu_fhc_summer get_mbf_sets_summer hid_beta_f get_hid_traps
           use_temp weights method (Some v) zdr ldr kdp rho T_
           plot_flag use_trap n_types temp_factor band return_scores) <>
    Ok None.
Proof.
  intros use_temp weights method v zdr ldr kdp rho T_ plot_flag use_trap
         n_types temp_factor band return_scores Hm.
  unfold csu_fhc_summer.
  destruct (_populate_vars (Some v) zdr kdp rho ldr T_)
    as [[[[radar_data fhc_vars] shp] sz] | e]; [| discriminate].
  destruct (_get_pol_flag fhc_vars) as [pol_flag | e]; [| discriminate].
  match goal with
  | |- context [_get_weight_sum ?f ?w ?m] =>
      pose proof (get_weight_sum_recognised f w m Hm) as Hws;
      destruct (_get_weight_sum f w m) as [out [[[weight_sum varlist] |] | e]]
  end; simpl in Hws; try congruence; try discriminate.
  cbn [snd]. unfold _get_test_list.
  destruct (test_loop _ _ _ _ _ _ _ _ _ _ _ _ _ _ _ _) as [tl | err];
    cbn [bind]; [| discriminate].
  destruct (np_array tl) as [mu | e]; cbn [bind]; [| discriminate].
  destruct (reshape (snd mu) (n_types :: shp)) as [cube | e];
    cbn [bind]; [| discriminate].
  destruct return_scores; [discriminate |].
  destruct (argmax_axis0_plus1 n_types shp (snd cube));
    cbn [bind]; discriminate.
Qed.

(** C9: whenever [csu_fhc_summer] returns a category array, the array
    is the arg-max along the species axis, plus 1, of a score cube with
    exactly [n_types] rows, and every entry lies in [1, n_types]. *)
Theorem csu_fhc_summer_categories_in_range :
  forall (use_temp : bool) (weights : weight_table) (method : string)
         (dz zdr ldr kdp rho T_ : option measurand)
         (plot_flag use_trap : bool) (n_types : nat) (temp_factor : fl)
         (band : string) (return_scores : bool)
         (out : list string) (shp : list nat) (hid : list Z),
    csu_fhc_summer get_mbf_sets_summer hid_beta_f get_hid_traps
      use_temp weights method dz zdr ldr kdp rho T_
      plot_flag use_trap n_types temp_factor band return_scores =
    (out, Ok (Some (Categories shp hid))) ->
    (exists dat : list fl,
        List.length dat = n_types * prod_shape shp /\
        hid = map (fun j =>
                     (Z.of_nat (argmax (column n_types (prod_shape shp) dat j)) + 1)%Z)
                  (seq 0 (prod_shape shp))) /\
    Forall (fun c => (1 <= c <= Z.of_nat n_types)%Z) hid.
Proof.
  intros use_temp weights method dz zdr ldr kdp rho T_ plot_flag use_trap
         n_types temp_factor band return_scores out shp hid Hcall.
  unfold csu_fhc_summer in Hcall.
  destruct dz as [v |]; [| discriminate].
  destruct (_populate_vars (Some v) zdr kdp rho ldr T_)
    as [[[[radar_data fhc_vars] shp0] sz] | e]; [| discriminate].
  destruct (_get_pol_flag fhc_vars) as [pol_flag | e]; [| discriminate].
  destruct (_get_weight_sum _ _ _) as [out' [[[weight_sum varlist] |] | e]];
    try discriminate.
  injection Hcall as _ Hcall.
  destruct (_get_test_list _ _ _ _ _ _ _ _ _ _ _ _ _) as [[tl |] | e];
    cbn [bind] in Hcall; try discriminate.
  destruct (np_array tl) as [mu | e]; cbn [bind] in Hcall; [| discriminate].
  destruct (reshape (snd mu) (n_types :: shp0)) as [cube | e] eqn:Hcube;
    cbn [bind] in Hcall; [| discriminate].
  destruct return_scores; [discriminate |].
  destruct (argmax_axis0_plus1 n_types shp0 (snd cube)) as [hid0 | e] eqn:Harg;
    cbn [bind] in Hcall; [| discriminate].
  injection Hcall as Hshp Hhid. subst shp0 hid0.
  apply reshape_ok in Hcube. destruct Hcube as [Hc Hlen]. subst cube.
  cbn [snd] in Harg. apply argmax_axis0_plus1_ok in Harg.
  destruct Harg as [Hpos Hhid].
  split.
  - exists (snd mu). split; [| exact Hhid].
    rewrite <- Hlen. reflexivity.
  - rewrite Hhid. apply Forall_forall. intros c Hc.
    apply in_map_iff in Hc. destruct Hc as [j [Hj _]]. subst c.
    assert (Hlt : argmax (column n_types (prod_shape shp) (snd mu) j) < n_types).
    { rewrite <- (column_length n_types (prod_shape shp) (snd mu) j) at 2.
      apply argmax_lt. intros Hnil.
      apply (f_equal (@List.length fl)) in Hnil.
      rewrite column_length in Hnil. simpl in Hnil. lia. }
    lia.
Qed.

(** C10: with [method = 'linear'], reflectivity present and none of
    [zdr], [kdp], [rho], [ldr] given, the loop of [_get_test_list] never
    assigns [test], and the call ends in an unbound-local error instead
    of returning [None] or an array.  The provider hands back one entry
    per species, [n_types] of them, and there is at least one species. *)
Theorem csu_fhc_summer_linear_without_pol_raises :
  forall (use_temp : bool) (weights : weight_table)
         (v : measurand) (T_ : option measurand)
         (plot_flag use_trap : bool) (n_types : nat) (temp_factor : fl)
         (band : string) (return_scores : bool),
    (forall ut : bool,
        List.length (set_m (Zh_set (get_mbf_sets_summer ut plot_flag n_types
                                      temp_factor band))) = n_types) ->
    0 < n_types ->
    csu_fhc_summer get_mbf_sets_summer hid_beta_f get_hid_traps
      use_temp weights "linear" (Some v) None None None None T_
      plot_flag use_trap n_types temp_factor band return_scores =
    ([], Raise UnboundLocalError).
Proof.
  intros use_temp weights v T_ plot_flag use_trap n_types temp_factor band
         return_scores Hlen Hpos.
  destruct n_types as [| n]; [lia |].
  destruct (populate_vars_no_pol v T_)
    as (radar_data & fhc_vars & Hpop & Hdr & Hkd & Hld & Hrh & Hall).
  assert (Hpol : _get_pol_flag fhc_vars = Ok false).
  { unfold _get_pol_flag, getd. rewrite Hdr, Hkd, Hld, Hrh. reflexivity. }
  unfold csu_fhc_summer. rewrite Hpop, Hpol.
  match goal with
  | |- context [_get_weight_sum ?f weights "linear"] =>
      destruct (get_weight_sum_linear f weights) as [weight_sum Hws]
  end.
  { destruct (match T_ with Some _ => use_temp | None => false end);
      [exact Hall | now apply setitem_total]. }
  rewrite Hws. unfold _get_test_list. cbn [_convert_mbf_sets].
  rewrite Hlen. cbn [seq].
    rewrite test_loop_linear_no_pol; reflexivity.
Qed.

End Externals.

(** *** Concrete runs *)

Lemma csu_fhc_summer_unrecognised_method_returns_none_witness :
  snd (sample_call true DEFAULT_WEIGHTS "fuzzy"
         (Some (one_bin 5)) None None None None (Some (one_bin 3)) false) =
  Ok None.
Proof.
  apply (csu_fhc_summer_unrecognised_method_returns_none
           sample_sets sample_beta_f sample_traps); reflexivity.
Defined.

(** C6 as stated fails: ['hybrid1'] is neither ['linear'] nor ['hybrid'],
    yet it contains ['hybrid'], is taken for the hybrid method, and the
    call returns a category array. *)
Lemma csu_fhc_summer_accepts_method_containing_hybrid :
  "hybrid1"%string <> "hybrid"%string /\
  "hybrid1"%string <> "linear"%string /\
  sample_call true DEFAULT_WEIGHTS "hybrid1"
    (Some (one_bin 5)) None None None None None false =
  ([], Ok (Some (Categories [1] [2%Z]))).
Proof.
  split; [discriminate |]. split; [discriminate |].
  vm_compute. reflexivity.
Qed.

Lemma csu_fhc_summer_recognised_method_never_none_witness :
  snd (sample_call true zero_weights "hybrid"
         (Some (one_bin 5)) (Some (one_bin 1)) None None None None false) <>
  Ok None.
Proof.
  apply (csu_fhc_summer_recognised_method_never_none
           sample_sets sample_beta_f sample_traps).
  left. reflexivity.
Defined.

(** C2 as stated fails: with every weight zero the weight sum of the
    hybrid method is zero, yet the call does not return [None]: the
    per-species scores are computed, the division by the zero weight sum
    yields NaN, and the arg-max of the all-NaN columns is returned. *)
Lemma csu_fhc_summer_zero_weight_sum_not_rejected :
  match _populate_vars (Some (one_bin 5)) (Some (one_bin 1)) None None None None with
  | Ok (_, fhc_vars, _, _) =>
      _get_weight_sum (setitem fhc_vars T 0%Z) zero_weights "hybrid" =
      ([], Ok (Some (Fin 0%Q, [DR; KD; RH; LD])))
  | Raise _ => False
  end /\
  sample_call true zero_weights "hybrid"
    (Some (one_bin 5)) (Some (one_bin 1)) None None None None false =
  ([], Ok (Some (Categories [1] [1%Z]))).
Proof. split; vm_compute; reflexivity. Qed.

Lemma csu_fhc_summer_categories_in_range_witness :
  (exists dat : list fl,
      List.length dat = 2 * prod_shape [1%nat] /\
      [2%Z] = map (fun j =>
                    (Z.of_nat (argmax (column 2%nat (prod_shape [1%nat]) dat j)) + 1)%Z)
                  (seq 0%nat (prod_shape [1%nat]))) /\
  Forall (fun c => (1 <= c <= Z.of_nat 2)%Z) [2%Z].
Proof.
  apply (csu_fhc_summer_categories_in_range
           sample_sets sample_beta_f sample_traps
           true DEFAULT_WEIGHTS "hybrid"%string
           (Some (one_bin 5)) None None None None None
           false false 2 (Fin 1%Q) "S"%string false []).
  vm_compute. reflexivity.
Defined.

Lemma csu_fhc_summer_linear_without_pol_raises_witness :
  sample_call true DEFAULT_WEIGHTS "linear"
    (Some (one_bin 5)) None None None None (Some (one_bin 3)) false =
  ([], Raise UnboundLocalError).
Proof.
  apply (csu_fhc_summer_linear_without_pol_raises
           sample_sets sample_beta_f sample_traps).
  - intros ut. reflexivity.
  - lia.
Defined.

End SummerFacts.

(** ** The winter blend *)

Module WinterFacts.

Import Summer Winter.
Local Open Scope nat_scope.

(** *** Running the store operations *)

Lemma mbind_ok {A B : Type} (c : M A) (k : A -> M B) (st st1 : state) (v : A) :
  c st = Ok (v, st1) -> mbind c k st = k v st1.
Proof. intros Hc. unfold mbind. now rewrite Hc. Qed.

Lemma set_nth_app (h0 cells : list (list Z)) (i : nat) (v : list Z) :
  set_nth (h0 ++ cells) (List.length h0 + i) v = h0 ++ set_nth cells i v.
Proof. induction h0 as [| x h0 IH]; simpl; [reflexivity | now rewrite IH]. Qed.

Lemma alloc_framed (h0 : list (list Z)) (out : list string)
    (cells : list (list Z)) (v : list Z) :
  alloc v (framed h0 out cells) =
  Ok (List.length h0 + List.length cells, framed h0 out (cells ++ [v])).
Proof.
  unfold alloc, framed. simpl. now rewrite length_app, <- app_assoc.
Qed.

Lemma deref_framed (h0 : list (list Z)) (out : list string)
    (cells : list (list Z)) (i : nat) :
  deref (framed h0 out cells) (List.length h0 + i) = nth i cells [].
Proof. unfold deref, framed. simpl. apply app_nth2_plus. Qed.

Lemma read_framed (h0 : list (list Z)) (out : list string)
    (cells : list (list Z)) (i : nat) :
  read (List.length h0 + i) (framed h0 out cells) =
  Ok (nth i cells [], framed h0 out cells).
Proof. unfold read. now rewrite deref_framed. Qed.

Lemma write_framed (h0 : list (list Z)) (out : list string)
    (cells : list (list Z)) (i : nat) (v : list Z) :
  write (List.length h0 + i) v (framed h0 out cells) =
  Ok (tt, framed h0 out (set_nth cells i v)).
Proof. unfold write, framed. simpl. now rewrite set_nth_app. Qed.

Lemma length_eq_mask (arr : list Z) (v : Z) :
  List.length (eq_mask arr v) = List.length arr.
Proof. unfold eq_mask. apply length_map. Qed.

Lemma length_fill (arr : list Z) (mask : list bool) (v : Z) :
  List.length (fill arr mask v) = List.length arr.
Proof.
  revert mask. induction arr as [| x arr IH]; intros [| b mask]; simpl;
    try reflexivity. now rewrite IH.
Qed.

Lemma length_scatter (arr : list Z) (mask : list bool) (vals : list Z) :
  List.length (scatter arr mask vals) = List.length arr.
Proof.
  revert mask vals. induction arr as [| x arr IH]; intros [| b mask] vals;
    simpl; try reflexivity.
  destruct b; [destruct vals |]; simpl; now rewrite IH.
Qed.

Lemma length_select (arr : list Z) (mask : list bool) :
  List.length arr = List.length mask ->
  List.length (select arr mask) = count_true mask.
Proof.
  revert mask. induction arr as [| x arr IH]; intros [| b mask] Hlen;
    simpl in *; try reflexivity; try discriminate.
  injection Hlen as Hlen. unfold count_true in *. simpl.
  destruct b; simpl; now rewrite IH.
Qed.

Lemma setitem_mask_scalar_framed (h0 : list (list Z)) (out : list string)
    (cells : list (list Z)) (i : nat) (mask : list bool) (v : Z) :
  setitem_mask_scalar (List.length h0 + i) mask v (framed h0 out cells) =
  if List.length (nth i cells []) =? List.length mask
  then Ok (tt, framed h0 out (set_nth cells i (fill (nth i cells []) mask v)))
  else Raise IndexError.
Proof.
  unfold setitem_mask_scalar.
  rewrite (mbind_ok _ _ _ _ _ (read_framed h0 out cells i)).
  destruct (List.length (nth i cells []) =? List.length mask);
    [apply write_framed | reflexivity].
Qed.

Lemma getitem_mask_framed (h0 : list (list Z)) (out : list string)
    (cells : list (list Z)) (i : nat) (mask : list bool) :
  getitem_mask (List.length h0 + i) mask (framed h0 out cells) =
  if List.length (nth i cells []) =? List.length mask
  then Ok (select (nth i cells []) mask, framed h0 out cells)
  else Raise IndexError.
Proof.
  unfold getitem_mask.
  rewrite (mbind_ok _ _ _ _ _ (read_framed h0 out cells i)).
  destruct (List.length (nth i cells []) =? List.length mask); reflexivity.
Qed.

Lemma setitem_mask_framed (h0 : list (list Z)) (out : list string)
    (cells : list (list Z)) (i : nat) (mask : list bool) (src : list Z) :
  List.length src = List.length mask ->
  setitem_mask (List.length h0 + i) mask (select src mask) (framed h0 out cells) =
  if List.length (nth i cells []) =? List.length mask
  then Ok (tt, framed h0 out
                 (set_nth cells i (scatter (nth i cells []) mask (select src mask))))
  else Raise IndexError.
Proof.
  intros Hlen. unfold setitem_mask.
  rewrite (mbind_ok _ _ _ _ _ (read_framed h0 out cells i)).
  destruct (List.length (nth i cells []) =? List.length mask); [| reflexivity].
  rewrite (length_select _ _ Hlen), Nat.eqb_refl. apply write_framed.
Qed.

Lemma argmax_plus1_framed (h0 : list (list Z)) (out : list string)
    (cells : list (list Z)) (scores : cube) :
  argmax_plus1 scores (framed h0 out cells) =
  match argmax_axis0_plus1 (c_rows scores) (c_rest scores) (c_data scores) with
  | Ok v => Ok (List.length h0 + List.length cells, framed h0 out (cells ++ [v]))
  | Raise e => Raise e
  end.
Proof.
  unfold argmax_plus1, mbind, lift.
  destruct (argmax_axis0_plus1 _ _ _); [apply alloc_framed | reflexivity].
Qed.

Lemma framed_nil (st : state) : st = framed (heap st) (stdout st) [].
Proof. destruct st as [h o]. unfold framed. simpl. now rewrite app_nil_r. Qed.

(** *** The overrides, bin by bin *)

Lemma nth_error_eq_mask (arr : list Z) (v : Z) (i : nat) (x : Z) :
  nth_error arr i = Some x ->
  nth_error (eq_mask arr v) i = Some (x =? v)%Z.
Proof.
  intros Hx. unfold eq_mask. rewrite nth_error_map, Hx. reflexivity.
Qed.

Lemma nth_error_fill (arr : list Z) (mask : list bool) (v : Z)
    (i : nat) (x : Z) (b : bool) :
  nth_error arr i = Some x -> nth_error mask i = Some b ->
  nth_error (fill arr mask v) i = Some (if b then v else x).
Proof.
  revert mask i. induction arr as [| y arr IH]; intros [| c mask] [| i] Hx Hb;
    simpl in *; try discriminate.
  - injection Hx as Hx. injection Hb as Hb. now subst.
  - now apply IH.
Qed.

Lemma nth_error_same_length {A B : Type} (u : list A) (w : list B)
    (i : nat) (x : A) :
  List.length w = List.length u -> nth_error u i = Some x ->
  exists y, nth_error w i = Some y.
Proof.
  intros Hlen Hx.
  assert (Hi : i < List.length u) by (apply nth_error_Some; congruence).
  destruct (nth_error w i) as [y |] eqn:Hy; [now exists y |].
  apply nth_error_None in Hy. lia.
Qed.

(** The value of a bin after the three overrides. *)
Lemma melt_overrides_bin (fh w : list Z) (i : nat) (f : Z) :
  List.length w = List.length fh ->
  nth_error fh i = Some f ->
  exists x,
    nth_error w i = Some x /\
    nth_error (melt_overrides fh w) i =
    Some (if (f =? 0)%Z then (-1)%Z
          else if (f =? -1)%Z then (-1)%Z
               else if (f =? 5)%Z then 5%Z else x).
Proof.
  intros Hlen Hf.
  destruct (nth_error_same_length fh w i f Hlen Hf) as [x Hx].
  exists x. split; [exact Hx |].
  unfold melt_overrides.
  rewrite (nth_error_fill _ _ _ i _ _
             (nth_error_fill _ _ _ i _ _
                (nth_error_fill _ _ _ i _ _ Hx (nth_error_eq_mask fh 5 i f Hf))
                (nth_error_eq_mask fh (-1) i f Hf))
             (nth_error_eq_mask fh 0 i f Hf)).
  reflexivity.
Qed.

Lemma remap_wet_snow_bin (fh : list Z) (i : nat) (f : Z) :
  nth_error fh i = Some f ->
  nth_error (remap_wet_snow fh) i = Some (if (f =? 2)%Z then 5%Z else f).
Proof.
  intros Hf. unfold remap_wet_snow.
  now rewrite (nth_error_fill _ _ 5 i _ _ Hf (nth_error_eq_mask fh 2 i f Hf)).
Qed.

Lemma remap_wet_snow_no_2 (fh : list Z) : ~ In 2%Z (remap_wet_snow fh).
Proof.
  intros Hin. apply In_nth_error in Hin. destruct Hin as [i Hi].
  assert (Hlen : List.length fh = List.length (remap_wet_snow fh))
    by (unfold remap_wet_snow; now rewrite length_fill).
  destruct (nth_error_same_length _ fh i _ Hlen Hi) as [f Hf].
  rewrite (remap_wet_snow_bin fh i f Hf) in Hi.
  destruct (f =? 2)%Z eqn:E; injection Hi as Hi; [discriminate |].
  apply Z.eqb_neq in E. contradiction.
Qed.

Lemma nth_error_assign_where (dst : list Z) (mask : list bool) (src : list Z)
    (i : nat) (x y : Z) (b : bool) :
  nth_error dst i = Some x -> nth_error mask i = Some b ->
  nth_error src i = Some y ->
  nth_error (assign_where dst mask src) i = Some (if b then y else x).
Proof.
  unfold assign_where. revert mask src i.
  induction dst as [| d dst IH]; intros [| c mask] [| z src] [| i] Hx Hb Hy;
    simpl in *; try discriminate.
  - injection Hx as Hx. injection Hb as Hb. injection Hy as Hy. subst.
    now destruct b.
  - destruct c; simpl; now apply IH.
Qed.

(** The regime assignment at one bin: cold inside the melting level of a
    gridded scan, cold above it, warm below it, the initial value
    elsewhere. *)
Lemma regime_assignment_bin (grid : bool) (meltlev fhwarm fhcold base : list Z)
    (i : nat) (m w c x : Z) :
  nth_error meltlev i = Some m -> nth_error fhwarm i = Some w ->
  nth_error fhcold i = Some c -> nth_error base i = Some x ->
  nth_error (regime_assignment grid meltlev fhwarm fhcold base) i =
  Some (if grid && (m =? 1)%Z then c
        else if (m =? 2)%Z then c
             else if (m =? 0)%Z then w else x).
Proof.
  intros Hm Hw Hc Hx. unfold regime_assignment.
  pose proof (nth_error_assign_where _ _ _ i _ _ _
                (nth_error_assign_where _ _ _ i _ _ _
                   Hx (nth_error_eq_mask meltlev 0 i m Hm) Hw)
                (nth_error_eq_mask meltlev 2 i m Hm) Hc) as H2.
  destruct grid; cbn [andb].
  - rewrite (nth_error_assign_where _ _ _ i _ _ _
               H2 (nth_error_eq_mask meltlev 1 i m Hm) Hc).
    reflexivity.
  - exact H2.
Qed.

Lemma length_regime_assignment (grid : bool) (meltlev fhwarm fhcold base : list Z) :
  List.length (regime_assignment grid meltlev fhwarm fhcold base) =
  List.length base.
Proof.
  unfold regime_assignment, assign_where.
  destruct grid; now rewrite ?length_scatter.
Qed.

(** One statement of [run_winter] executed on a framed store. *)
Ltac exec H :=
  unfold mbind at 1 in H;
  first [ rewrite alloc_framed in H
        | rewrite read_framed in H
        | rewrite setitem_mask_scalar_framed in H
        | rewrite getitem_mask_framed in H
        | rewrite argmax_plus1_framed in H ];
  cbn [List.length app nth set_nth] in H.

Section Externals.

Variable melting_layer :
  option measurand -> option measurand -> option measurand ->
  option measurand -> option measurand -> option measurand ->
  string -> bool -> string -> string -> option measurand ->
  fl -> fl -> fl -> nat -> ml_result.
Variable csu_fhc_winter :
  option measurand -> option measurand -> option measurand ->
  option measurand -> bool -> option measurand -> string ->
  bool -> bool -> string -> cube.

(** What a returning call of [run_winter] has done: the objects it
    created follow the initial store in the order melt level, melt
    categorization, warm, cold and final categories. *)
Lemma run_winter_returns
    (dz zdr rho kdp ldr sn T_ : option measurand)
    (use_temp : bool) (band method : string) (sn_thresh expected_ML : fl)
    (nsect : nat) (return_scores : bool) (azimuths : option measurand)
    (verbose : bool) (minRH : fl) (scan_type : string)
    (heights : option measurand) (fdir : string)
    (h0 : list (list Z)) (out : list string) (r : returned) (st' : state) :
  run_winter melting_layer csu_fhc_winter dz zdr rho kdp ldr sn T_ use_temp
    band method sn_thresh expected_ML nsect return_scores azimuths verbose
    minRH scan_type heights fdir (framed h0 out []) = Ok (r, st') ->
  let res := melting_layer dz zdr kdp rho sn heights scan_type verbose band
               fdir azimuths expected_ML minRH sn_thresh nsect in
  let scores_warm :=
    csu_fhc_winter dz zdr None kdp true T_ "C"%string true verbose fdir in
  let scores_cold :=
    csu_fhc_winter dz zdr None kdp true T_ "C"%string false verbose fdir in
  let fh := remap_wet_snow (ml_fh res) in
  exists w0 fhcold,
    argmax_axis0_plus1 (c_rows scores_warm) (c_rest scores_warm)
      (c_data scores_warm) = Ok w0 /\
    argmax_axis0_plus1 (c_rows scores_cold) (c_rest scores_cold)
      (c_data scores_cold) = Ok fhcold /\
    List.length (ml_meltlev res) = List.length (ml_fh res) /\
    List.length w0 = List.length (ml_fh res) /\
    List.length fhcold = List.length (ml_fh res) /\
    deref st' (winter_hca_of r) =
      melt_overrides fh
        (regime_assignment (String.eqb scan_type "grid")
           (ml_meltlev res) (renumber_warm w0) fhcold
           (map (fun _ => (0 - 1)%Z) fh)) /\
    deref st' (List.length h0 + 1) = fh /\
    r = (if return_scores
         then HcaScores (List.length h0 + 4)
                {| ML := ml_scores res; warm := scores_warm; cold := scores_cold |}
                {| ML := List.length h0 + 1; warm := List.length h0 + 2;
                   cold := List.length h0 + 3 |}
         else Hca (List.length h0 + 4)).
Proof.
  intros Hrun res scores_warm scores_cold fh.
  unfold run_winter in Hrun. fold res scores_warm scores_cold in Hrun.
  exec Hrun. exec Hrun. exec Hrun.
  destruct (argmax_axis0_plus1 (c_rows scores_warm) _ _) as [w0 | e] eqn:Hw0;
    [| discriminate].
  cbn [List.length app] in Hrun.
  exec Hrun. exec Hrun.
  rewrite length_eq_mask, Nat.eqb_refl in Hrun. cbn [set_nth] in Hrun.
  exec Hrun. exec Hrun.
  rewrite length_eq_mask, Nat.eqb_refl in Hrun. cbn [set_nth] in Hrun.
  fold (renumber_warm w0) in Hrun.
  exec Hrun.
  destruct (argmax_axis0_plus1 (c_rows scores_cold) _ _) as [fhcold | e] eqn:Hcold;
    [| discriminate].
  cbn [List.length app] in Hrun.
  exec Hrun. exec Hrun.
  rewrite length_eq_mask, Nat.eqb_refl in Hrun. cbn [set_nth] in Hrun.
  fold (remap_wet_snow (ml_fh res)) in Hrun. fold fh in Hrun.
  exec Hrun. exec Hrun. exec Hrun.
  (* winter_hca[meltlev == 0] = fhwarm[meltlev == 0] *)
  exec Hrun.
  destruct (List.length (renumber_warm w0) =? _) eqn:Hlw; [| discriminate].
  apply Nat.eqb_eq in Hlw.
  unfold mbind at 1 in Hrun.
  rewrite (setitem_mask_framed _ _ _ _ _ _ Hlw) in Hrun.
  cbn [nth] in Hrun.
  destruct (List.length (map _ fh) =? _) eqn:Hlf; [| discriminate].
  apply Nat.eqb_eq in Hlf. cbn [set_nth] in Hrun.
  (* winter_hca[meltlev == 2] = fhcold[meltlev == 2] *)
  exec Hrun.
  destruct (List.length fhcold =? _) eqn:Hlc; [| discriminate].
  apply Nat.eqb_eq in Hlc.
  unfold mbind at 1 in Hrun.
  rewrite (setitem_mask_framed _ _ _ _ _ _ Hlc) in Hrun.
  cbn [nth] in Hrun.
  rewrite length_eq_mask in Hlw, Hlf, Hlc. rewrite length_map in Hlf.
  rewrite length_scatter, length_map, length_eq_mask, Hlf, Nat.eqb_refl in Hrun.
  cbn [set_nth] in Hrun.
  fold (assign_where (map (fun _ : Z => (0 - 1)%Z) fh)
          (eq_mask (ml_meltlev res) 0) (renumber_warm w0)) in Hrun.
  match type of Hrun with
  | context [scatter ?d ?m (select fhcold ?m)] =>
      fold (assign_where d m fhcold) in Hrun; set (w2 := assign_where d m fhcold) in *
  end.
  assert (Hw2 : List.length w2 = List.length (ml_meltlev res)).
  { unfold w2, assign_where. now rewrite !length_scatter, length_map. }
  (* the gridded case *)
  set (grid := String.eqb scan_type "grid") in *.
  set (w3 := if grid
             then assign_where w2 (eq_mask (ml_meltlev res) 1) fhcold
             else w2).
  assert (Hw3 : List.length w3 = List.length (ml_meltlev res)).
  { unfold w3, assign_where. destruct grid; [| exact Hw2].
    now rewrite length_scatter. }
  unfold mbind at 1 in Hrun.
  match type of Hrun with
  | context [(if grid then ?c else ret tt) ?st] =>
      assert (Hgrid : exists out',
                 (if grid then c else ret tt) st =
                 Ok (tt, framed h0 out'
                           [ml_meltlev res; fh; renumber_warm w0; fhcold; w3]))
  end.
  { unfold w3. destruct grid; [| now exists out].
    unfold mbind at 1.
    assert (Hpr : exists out',
               (if verbose
                then print "Note: Things get weird at the melting level in a gridded file."
                else ret tt)
                 (framed h0 out [ml_meltlev res; fh; renumber_warm w0; fhcold; w2]) =
               Ok (tt, framed h0 out'
                         [ml_meltlev res; fh; renumber_warm w0; fhcold; w2])).
    { destruct verbose; eexists; reflexivity. }
    destruct Hpr as [out' Hpr]. rewrite Hpr. exists out'.
    unfold mbind at 1. rewrite getitem_mask_framed. cbn [nth].
    rewrite length_eq_mask, Hlc, Nat.eqb_refl.
    rewrite setitem_mask_framed by now rewrite length_eq_mask.
    cbn [nth]. rewrite length_eq_mask, Hw2, Nat.eqb_refl. reflexivity. }
  destruct Hgrid as [out' Hgrid]. rewrite Hgrid in Hrun. clear Hgrid.
  (* the overrides driven by fh *)
  exec Hrun. exec Hrun.
  rewrite length_eq_mask, Hw3, <- Hlf, Nat.eqb_refl in Hrun.
  cbn [set_nth] in Hrun.
  exec Hrun. exec Hrun.
  rewrite length_eq_mask, length_fill, Hw3, <- Hlf, Nat.eqb_refl in Hrun.
  cbn [set_nth] in Hrun.
  exec Hrun. exec Hrun.
  rewrite length_eq_mask, !length_fill, Hw3, <- Hlf, Nat.eqb_refl in Hrun.
  cbn [set_nth] in Hrun.
  fold (melt_overrides fh w3) in Hrun.
  assert (Hfh : List.length fh = List.length (ml_fh res))
    by (unfold fh, remap_wet_snow; apply length_fill).
  assert (Hret : r = (if return_scores
                      then HcaScores (List.length h0 + 4)
                             {| ML := ml_scores res; warm := scores_warm;
                                cold := scores_cold |}
                             {| ML := List.length h0 + 1;
                                warm := List.length h0 + 2;
                                cold := List.length h0 + 3 |}
                      else Hca (List.length h0 + 4)) /\
                 st' = framed h0 out'
                         [ml_meltlev res; fh; renumber_warm w0; fhcold;
                          melt_overrides fh w3]).
  { destruct return_scores; unfold ret in Hrun; injection Hrun as Hr Hst;
      now subst. }
  destruct Hret as [Hr Hst].
  exists w0, fhcold.
  split; [reflexivity |]. split; [reflexivity |].
  split; [congruence |].
  split; [unfold renumber_warm in Hlw; rewrite !length_fill in Hlw; congruence |].
  split; [congruence |].
  split; [| split; [| exact Hr]].
  - assert (Hloc : winter_hca_of r = List.length h0 + 4)
      by (rewrite Hr; now destruct return_scores).
    rewrite Hloc, Hst, deref_framed. reflexivity.
  - rewrite Hst, deref_framed. reflexivity.
Qed.

(** C3: the overrides of the blend are applied in the order regime
    assignment, wet-snow override, no-data overrides; hence at every bin
    where the adjusted melt categorization is 0 or -1 the final winter
    category is -1, whatever the regime mask and the regime scores. *)
Theorem run_winter_no_data_override_wins :
  forall (dz zdr rho kdp ldr sn T_ : option measurand)
         (use_temp : bool) (band method : string) (sn_thresh expected_ML : fl)
         (nsect : nat) (return_scores : bool) (azimuths : option measurand)
         (verbose : bool) (minRH : fl) (scan_type : string)
         (heights : option measurand) (fdir : string)
         (st : state) (r : returned) (st' : state),
    run_winter melting_layer csu_fhc_winter dz zdr rho kdp ldr sn T_ use_temp
      band method sn_thresh expected_ML nsect return_scores azimuths verbose
      minRH scan_type heights fdir st = Ok (r, st') ->
    let res := melting_layer dz zdr kdp rho sn heights scan_type verbose band
                 fdir azimuths expected_ML minRH sn_thresh nsect in
    let scores_warm :=
      csu_fhc_winter dz zdr None kdp true T_ "C"%string true verbose fdir in
    let scores_cold :=
      csu_fhc_winter dz zdr None kdp true T_ "C"%string false verbose fdir in
    let fh := remap_wet_snow (ml_fh res) in
    (exists w0 fhcold,
        argmax_axis0_plus1 (c_rows scores_warm) (c_rest scores_warm)
          (c_data scores_warm) = Ok w0 /\
        argmax_axis0_plus1 (c_rows scores_cold) (c_rest scores_cold)
          (c_data scores_cold) = Ok fhcold /\
        deref st' (winter_hca_of r) =
        melt_overrides fh
          (regime_assignment (String.eqb scan_type "grid")
             (ml_meltlev res) (renumber_warm w0) fhcold
             (map (fun _ => (0 - 1)%Z) fh))) /\
    (forall (i : nat) (f : Z),
        nth_error fh i = Some f -> f = 0%Z \/ f = (-1)%Z ->
        nth_error (deref st' (winter_hca_of r)) i = Some (-1)%Z).
Proof.
  intros dz zdr rho kdp ldr sn T_ use_temp band method sn_thresh expected_ML
         nsect return_scores azimuths verbose minRH scan_type heights fdir
         st r st' Hrun res scores_warm scores_cold fh.
  rewrite (framed_nil st) in Hrun. apply run_winter_returns in Hrun.
  destruct Hrun as (w0 & fhcold & Hw0 & Hcold & Hml & Hlw & Hlc & Hw & _ & _).
  fold res fh in Hw.
  split.
  - exists w0, fhcold. repeat split; assumption.
  - intros i f Hf Hnodata. rewrite Hw.
    edestruct (melt_overrides_bin fh) as (x & _ & Hbin); [| exact Hf |].
    + rewrite length_regime_assignment. apply length_map.
    + rewrite Hbin. destruct Hnodata; subst f; reflexivity.
Qed.

(** C4: at every bin where the melting-layer category is 2 (wet snow)
    and the regime mask is 2 (cold), the final winter category is 5,
    not the cold-regime arg-max. *)
Theorem run_winter_wet_snow_in_cold_regime :
  forall (dz zdr rho kdp ldr sn T_ : option measurand)
         (use_temp : bool) (band method : string) (sn_thresh expected_ML : fl)
         (nsect : nat) (return_scores : bool) (azimuths : option measurand)
         (verbose : bool) (minRH : fl) (scan_type : string)
         (heights : option measurand) (fdir : string)
         (st : state) (r : returned) (st' : state),
    run_winter melting_layer csu_fhc_winter dz zdr rho kdp ldr sn T_ use_temp
      band method sn_thresh expected_ML nsect return_scores azimuths verbose
      minRH scan_type heights fdir st = Ok (r, st') ->
    let res := melting_layer dz zdr kdp rho sn heights scan_type verbose band
                 fdir azimuths expected_ML minRH sn_thresh nsect in
    forall i : nat,
      nth_error (ml_fh res) i = Some 2%Z ->
      nth_error (ml_meltlev res) i = Some 2%Z ->
      nth_error (deref st' (winter_hca_of r)) i = Some 5%Z.
Proof.
  intros dz zdr rho kdp ldr sn T_ use_temp band method sn_thresh expected_ML
         nsect return_scores azimuths verbose minRH scan_type heights fdir
         st r st' Hrun res i Hf _.
  rewrite (framed_nil st) in Hrun. apply run_winter_returns in Hrun.
  destruct Hrun as (w0 & fhcold & _ & _ & _ & _ & _ & Hw & _ & _).
  fold res in Hw. rewrite Hw.
  apply remap_wet_snow_bin in Hf. simpl in Hf.
  edestruct (melt_overrides_bin (remap_wet_snow (ml_fh res)))
    as (x & _ & Hbin); [| exact Hf |].
  - rewrite length_regime_assignment. apply length_map.
  - rewrite Hbin. reflexivity.
Qed.

(** C5, as amended: the wet-snow remap is done in place on the melt
    categorization array that the partitioner returned, not on a copy.
    When the scores are requested, the ['ML'] entry of the returned
    categorizations is that same object, the second one created by the
    call; it holds the remapped values, with 5 at every wet-snow bin
    and no 2 left. *)
Theorem run_winter_remaps_melt_categories_in_place :
  forall (dz zdr rho kdp ldr sn T_ : option measurand)
         (use_temp : bool) (band method : string) (sn_thresh expected_ML : fl)
         (nsect : nat) (azimuths : option measurand)
         (verbose : bool) (minRH : fl) (scan_type : string)
         (heights : option measurand) (fdir : string)
         (st : state) (r : returned) (st' : state),
    run_winter melting_layer csu_fhc_winter dz zdr rho kdp ldr sn T_ use_temp
      band method sn_thresh expected_ML nsect true azimuths verbose
      minRH scan_type heights fdir st = Ok (r, st') ->
    let res := melting_layer dz zdr kdp rho sn heights scan_type verbose band
                 fdir azimuths expected_ML minRH sn_thresh nsect in
    exists (w : loc) (scores : named cube) (hca : named loc),
      r = HcaScores w scores hca /\
      ML hca = List.length (heap st) + 1 /\
      deref st' (ML hca) = remap_wet_snow (ml_fh res) /\
      ~ In 2%Z (deref st' (ML hca)) /\
      (forall i : nat,
          nth_error (ml_fh res) i = Some 2%Z ->
          nth_error (deref st' (ML hca)) i = Some 5%Z).
Proof.
  intros dz zdr rho kdp ldr sn T_ use_temp band method sn_thresh expected_ML
         nsect azimuths verbose minRH scan_type heights fdir
         st r st' Hrun res.
  rewrite (framed_nil st) in Hrun. apply run_winter_returns in Hrun.
  destruct Hrun as (w0 & fhcold & _ & _ & _ & _ & _ & _ & Hfh & Hr).
  fold res in Hfh. cbn [heap framed] in Hr.
  eexists; eexists; eexists. split; [exact Hr |].
  cbn [ML]. split; [reflexivity |].
  rewrite Hfh. split; [reflexivity |].
  split; [apply remap_wet_snow_no_2 |].
  intros i Hi. now rewrite (remap_wet_snow_bin _ i 2%Z Hi).
Qed.

End Externals.

(** *** Concrete runs *)

Lemma run_winter_no_data_override_wins_witness :
  exists r st',
    sample_run false "ppi" = Ok (r, st') /\
    nth_error (deref st' (winter_hca_of r)) 0 = Some (-1)%Z.
Proof.
  eexists; eexists. split; [vm_compute; reflexivity |].
  pose proof (run_winter_no_data_override_wins
                sample_melting_layer sample_csu_fhc_winter
                None None None None None None None false "S" "linear"
                (Fin 5%Q) (Fin 4%Q) 36 false None true (Fin (1 # 2)) "ppi" None
                "csv" initial _ _ ltac:(vm_compute; reflexivity)) as Hthm.
  cbv zeta in Hthm. destruct Hthm as [_ Hbin].
  apply (Hbin 0 0%Z); [reflexivity | left; reflexivity].
Defined.

Lemma run_winter_wet_snow_in_cold_regime_witness :
  exists r st',
    sample_run false "grid" = Ok (r, st') /\
    nth_error (deref st' (winter_hca_of r)) 1 = Some 5%Z.
Proof.
  eexists; eexists. split; [vm_compute; reflexivity |].
  pose proof (run_winter_wet_snow_in_cold_regime
                sample_melting_layer sample_csu_fhc_winter
                None None None None None None None false "S" "linear"
                (Fin 5%Q) (Fin 4%Q) 36 false None true (Fin (1 # 2)) "grid" None
                "csv" initial _ _ ltac:(vm_compute; reflexivity)) as Hthm.
  cbv zeta in Hthm. apply (Hthm 1); reflexivity.
Defined.

Lemma run_winter_remaps_melt_categories_in_place_witness :
  exists r st',
    sample_run true "ppi" = Ok (r, st') /\
    exists (w : loc) (scores : named cube) (hca : named loc),
      r = HcaScores w scores hca /\
      ML hca = List.length (heap initial) + 1 /\
      deref st' (ML hca) = remap_wet_snow [0; 2; 1]%Z /\
      ~ In 2%Z (deref st' (ML hca)) /\
      (forall i : nat,
          nth_error [0; 2; 1]%Z i = Some 2%Z ->
          nth_error (deref st' (ML hca)) i = Some 5%Z).
Proof.
  eexists; eexists. split; [vm_compute; reflexivity |].
  exact (run_winter_remaps_melt_categories_in_place
           sample_melting_layer sample_csu_fhc_winter
           None None None None None None None false "S" "linear"
           (Fin 5%Q) (Fin 4%Q) 36 None true (Fin (1 # 2)) "ppi" None
           "csv" initial _ _ ltac:(vm_compute; reflexivity)).
Defined.

(** C5 as stated fails: the partitioner reports wet snow (2) at the
    second bin; after the call with the scores requested, the ['ML']
    categorization returned is the partitioner's array, and it holds 5 at
    that bin, not 2. *)
Lemma run_winter_overwrites_melt_categories :
  ml_fh (sample_melting_layer None None None None None None "ppi" true "S"
           "csv" None (Fin 4%Q) (Fin (1 # 2)) (Fin 5%Q) 36) = [0; 2; 1]%Z /\
  exists w scores hca st',
    sample_run true "ppi" = Ok (HcaScores w scores hca, st') /\
    deref st' (ML hca) = [0; 5; 1]%Z /\
    nth_error (deref st' (ML hca)) 1 <> Some 2%Z.
Proof.
  split; [reflexivity |].
  eexists; eexists; eexists; eexists.
  split; [vm_compute; reflexivity |].
  split; [reflexivity | discriminate].
Qed.

End WinterFacts.


(** * Further properties *)

(** ** The scoring primitive: shape of the membership function *)

Module BetaExtra.

Import Beta BetaFacts.
Local Open Scope R_scope.

Lemma square_quotient_pos (x a m : R) :
  a <> 0 -> x <> m -> 0 < ((x - m) / a) ^ 2.
Proof.
  intros Ha Hx. rewrite <- Rsqr_pow2. apply Rsqr_pos_lt. intros Hq. apply Hx.
  apply (Rmult_eq_compat_r a) in Hq. unfold Rdiv in Hq.
  rewrite Rmult_assoc, Rinv_l, Rmult_1_r, Rmult_0_l in Hq by assumption. lra.
Qed.

Lemma hid_beta_singleton (x a b m : R) :
  hid_beta [Fin x] a b m = [hid_beta1 (Fin x) a b m].
Proof. reflexivity. Qed.

(** X2: only the magnitude of the width parameter [a] matters: [a] and
    [-a] give the same scores on every array of finite inputs. *)
Theorem hid_beta_width_sign_irrelevant :
  forall (xs : list R) (a b m : R),
    a <> 0 ->
    hid_beta (map (@Fin R) xs) (- a) b m = hid_beta (map (@Fin R) xs) a b m.
Proof.
  intros xs a b m Ha. unfold hid_beta. rewrite !map_map. apply map_ext.
  intros x.
  assert (Hna : - a <> 0) by lra.
  rewrite (@hid_beta1_formula x (- a) b m Hna), (@hid_beta1_formula x a b m Ha).
  f_equal. unfold beta_formula.
  destruct (Req_dec_T x m); [reflexivity |].
  replace (((x - m) / - a) ^ 2) with (((x - m) / a) ^ 2) by (field; exact Ha).
  reflexivity.
Qed.

Lemma hid_beta_width_sign_irrelevant_witness :
  hid_beta (map (@Fin R) [1; 3]) (- 2) 1 0 = hid_beta (map (@Fin R) [1; 3]) 2 1 0.
Proof. apply (hid_beta_width_sign_irrelevant [1; 3] 2 1 0). lra. Defined.

(** X4: for a positive exponent the score does not increase with the
    distance from the centre: if [x] is at least as close to [m] as [y] is,
    the score of [y] is at most the score of [x]. *)
Theorem hid_beta_decreases_with_distance :
  forall x y a b m : R,
    a <> 0 -> 0 < b -> Rabs (x - m) <= Rabs (y - m) ->
    exists sx sy : R,
      hid_beta [Fin x] a b m = [Fin sx] /\
      hid_beta [Fin y] a b m = [Fin sy] /\
      sy <= sx.
Proof.
  intros x y a b m Ha Hb Hdist. rewrite !hid_beta_singleton.
  destruct (Req_dec_T x m) as [Hx | Hx].
  - subst x. destruct (@hid_beta1_in_unit_interval y a b m Ha Hb) as [sy [Hy Hr]].
    exists 1, sy. rewrite (@hid_beta1_centre_pos a b m Ha Hb), Hy.
    repeat split; lra.
  - assert (Hy : y <> m).
    { intros ->. rewrite Rminus_diag, Rabs_R0 in Hdist.
      pose proof (Rabs_pos_lt (x - m)). lra. }
    rewrite (@hid_beta1_off_centre x a b m Ha Hx),
            (@hid_beta1_off_centre y a b m Ha Hy).
    eexists; eexists. split; [reflexivity |]. split; [reflexivity |].
    pose proof (square_quotient_pos x a m Ha Hx) as Hqx.
    assert (Hsq : ((x - m) / a) ^ 2 <= ((y - m) / a) ^ 2).
    { rewrite <- !Rsqr_pow2. apply Rsqr_le_abs_1.
      unfold Rdiv. rewrite !Rabs_mult.
      apply Rmult_le_compat_r; [apply Rabs_pos | exact Hdist]. }
    pose proof (@Rle_Rpower_l (((x - m) / a) ^ 2) (((y - m) / a) ^ 2) b
                  (Rlt_le _ _ Hb) (conj Hqx Hsq)) as Hpow.
    pose proof (exp_pos (b * ln (((x - m) / a) ^ 2))) as Hpx.
    fold (Rpower (((x - m) / a) ^ 2) b) in Hpx.
    unfold Rdiv. rewrite !Rmult_1_l.
    apply Rinv_le_contravar; lra.
Qed.

Lemma hid_beta_decreases_with_distance_witness :
  exists sx sy : R,
    hid_beta [Fin 1] 2 1 0 = [Fin sx] /\
    hid_beta [Fin 3] 2 1 0 = [Fin sy] /\
    sy <= sx.
Proof.
  apply (hid_beta_decreases_with_distance 1 3 2 1 0); try lra.
  rewrite !Rminus_0_r, !Rabs_pos_eq by lra. lra.
Defined.

(** X6: a zero width [a] raises nothing: with a positive exponent the
    division by zero yields an infinite base and the score 0 at every
    finite [x] other than [m], and NaN at [x = m]. *)
Theorem hid_beta_zero_width :
  forall x b m : R,
    0 < b ->
    (x <> m -> hid_beta [Fin x] 0 b m = [Fin 0]) /\
    hid_beta [Fin m] 0 b m = [NaN].
Proof.
  intros x b m Hb.
  assert (Hs0 : Rcmp 0 0 = Eq) by now apply Rcmp_Eq.
  assert (Hsb : Rcmp b 0 = Gt) by now apply Rcmp_Gt.
  split.
  - intros Hx. unfold hid_beta, hid_beta1. cbn [map xsub nsub Num_R].
    unfold xdiv at 2. unfold sgn. cbn [ncmp n0 Num_R]. rewrite Hs0.
    destruct (Rtotal_order (x - m) 0) as [Hlt | [Heq | Hgt]]; [| lra |].
    + rewrite (Rcmp_Lt Hlt). cbn [xsq xmul]. unfold xpow, sgn.
      cbn [ncmp n0 Num_R]. rewrite Hsb. reflexivity.
    + rewrite (Rcmp_Gt Hgt). cbn [xsq xmul]. unfold xpow, sgn.
      cbn [ncmp n0 Num_R]. rewrite Hsb. reflexivity.
  - unfold hid_beta, hid_beta1. cbn [map xsub nsub Num_R].
    unfold xdiv at 2. unfold sgn. cbn [ncmp n0 Num_R]. rewrite Hs0.
    rewrite (Rcmp_Eq (x := m - m) (y := 0)) by lra.
    cbn [xsq xmul]. unfold xpow, sgn. cbn [ncmp n0 Num_R]. rewrite Hsb.
    reflexivity.
Qed.

Lemma hid_beta_zero_width_witness :
  hid_beta [Fin 3] 0 2 1 = [Fin 0] /\ hid_beta [Fin 1] 0 2 1 = [NaN].
Proof.
  destruct (hid_beta_zero_width 3 2 1) as [Hoff Hcentre]; [lra |].
  split; [apply Hoff; lra | exact Hcentre].
Defined.

(** X7: invalid and infinite inputs raise nothing: with a non-zero
    exponent a NaN element stays NaN whatever the other parameters, and
    with a positive exponent and [a <> 0] an infinite element scores 0. *)
Theorem hid_beta_nan_and_infinite_inputs :
  forall a b m : R,
    (b <> 0 -> hid_beta [NaN] a b m = [NaN]) /\
    (a <> 0 -> 0 < b -> hid_beta [PInf; NInf] a b m = [Fin 0; Fin 0]).
Proof.
  intros a b m. split.
  - intros Hb. unfold hid_beta, hid_beta1. cbn [map xsub xdiv xsq xmul].
    unfold xpow, sgn. cbn [ncmp n0 Num_R].
    destruct (Rtotal_order b 0) as [Hlt | [Heq | Hgt]]; [| contradiction |].
    + rewrite (Rcmp_Lt Hlt). reflexivity.
    + rewrite (Rcmp_Gt Hgt). reflexivity.
  - intros Ha Hb.
    assert (Hsb : Rcmp b 0 = Gt) by now apply Rcmp_Gt.
    unfold hid_beta, hid_beta1. cbn [map xsub xdiv].
    unfold sgn. cbn [ncmp n0 Num_R].
    destruct (Rtotal_order a 0) as [Hlt | [Heq | Hgt]]; [| contradiction |].
    + rewrite (Rcmp_Lt Hlt). cbn [xsq xmul]. unfold xpow, sgn.
      cbn [ncmp n0 Num_R]. rewrite Hsb. reflexivity.
    + rewrite (Rcmp_Gt Hgt). cbn [xsq xmul]. unfold xpow, sgn.
      cbn [ncmp n0 Num_R]. rewrite Hsb. reflexivity.
Qed.

Lemma hid_beta_nan_and_infinite_inputs_witness :
  hid_beta [NaN] 2 1 0 = [NaN] /\ hid_beta [PInf; NInf] 2 1 0 = [Fin 0; Fin 0].
Proof.
  destruct (hid_beta_nan_and_infinite_inputs 2 1 0) as [Hnan Hinf].
  split; [apply Hnan; lra | apply Hinf; lra].
Defined.

End BetaExtra.


(** ** The summer classifier: inputs, method and shapes *)

Module SummerExtra.

Import Summer SummerFacts Notions.
Local Open Scope nat_scope.

Lemma populate_vars_given (v : measurand) (zdr kdp rho ldr T_ : option measurand) :
  exists radar_data fhc_vars,
    _populate_vars (Some v) zdr kdp rho ldr T_ =
    Ok (radar_data, fhc_vars, np_shape v, np_size v) /\
    forall k : key,
      fhc_vars k =
      Some (if is_given (passed (Some v) zdr kdp rho ldr T_ k) then 1%Z else 0%Z) /\
      radar_data k = option_map m_data (passed (Some v) zdr kdp rho ldr T_ k).
Proof.
  destruct zdr, kdp, rho, ldr, T_;
    (eexists; eexists; split; [reflexivity |]);
    intros k; destruct k; split; reflexivity.
Qed.


(** X8: without reflectivity [_populate_vars] cannot return: [shp] and
    [sz] are assigned only while handling the key ['DZ'], so the final
    [return] reads unbound locals, whatever the other variables. *)
Theorem populate_vars_without_dz_raises :
  forall zdr kdp rho ldr T_ : option measurand,
    _populate_vars None zdr kdp rho ldr T_ = Raise UnboundLocalError.
Proof. intros zdr kdp rho ldr T_. destruct zdr, kdp, rho, ldr, T_; reflexivity. Qed.


Lemma pol_flag_of_given (v : measurand) (zdr kdp rho ldr T_ : option measurand)
    (fhc_vars : dict Z) :
  (forall k : key,
      fhc_vars k =
      Some (if is_given (passed (Some v) zdr kdp rho ldr T_ k) then 1%Z else 0%Z)) ->
  _get_pol_flag fhc_vars =
  Ok (is_given zdr || is_given kdp || is_given ldr || is_given rho).
Proof.
  intros Hfv. unfold _get_pol_flag, getd.
  rewrite (Hfv DR), (Hfv KD), (Hfv LD), (Hfv RH). cbn [passed].
  destruct zdr, kdp, ldr, rho; reflexivity.
Qed.

(** X10: the polarimetric flag computed from what [_populate_vars]
    recorded is true exactly when at least one of [zdr], [kdp], [ldr],
    [rho] was passed; reflectivity and temperature do not count. *)
Theorem pol_flag_iff_polarimetric_input :
  forall (v : measurand) (zdr kdp rho ldr T_ : option measurand),
  exists radar_data fhc_vars shp sz,
    _populate_vars (Some v) zdr kdp rho ldr T_ =
    Ok (radar_data, fhc_vars, shp, sz) /\
    _get_pol_flag fhc_vars =
    Ok (is_given zdr || is_given kdp || is_given ldr || is_given rho).
Proof.
  intros v zdr kdp rho ldr T_.
  destruct (populate_vars_given v zdr kdp rho ldr T_) as (rd & fv & Hpop & Hk).
  exists rd, fv, (np_shape v), (np_size v). split; [exact Hpop |].
  apply (pol_flag_of_given v zdr kdp rho ldr T_). intros k. apply Hk.
Qed.

Lemma get_weight_sum_shape (fhc_vars : dict Z) (weights : weight_table)
    (method : string) :
  (forall k, exists z, fhc_vars k = Some z) ->
  exists weight_sum,
    _get_weight_sum fhc_vars weights method =
    if str_in "hybrid" method
    then ([], Ok (Some (weight_sum, [DR; KD; RH; LD])))
    else if str_in "linear" method
         then ([], Ok (Some (weight_sum, [DR; KD; RH; LD; T; DZ])))
         else (["No weighting method defined, use hybrid or linear"%string], Ok None).
Proof.
  intros Hall. unfold _get_weight_sum.
  assert (Hf : forall k, exists y,
               (v <- getd fhc_vars k ;; Ok (xmul (of_int v) (weights k))) = Ok y).
  { intros k. destruct (Hall k) as [z Hz]. unfold getd. rewrite Hz.
    simpl. now eexists. }
  destruct (str_in "hybrid" method).
  - destruct (mapM_total _ [DR; KD; RH; LD] Hf) as [ws Hws].
    rewrite Hws. simpl. now eexists.
  - destruct (str_in "linear" method).
    + destruct (mapM_total _ [DR; KD; RH; LD; T; DZ] Hf) as [ws Hws].
      rewrite Hws. simpl. now eexists.
    + now exists (Fin 0%Q).
Qed.

Lemma mapM_ext_in {A B : Type} (f g : A -> exc B) (l : list A) :
  (forall x, In x l -> f x = g x) -> mapM f l = mapM g l.
Proof.
  intros Hfg. induction l as [| x l IH]; [reflexivity |].
  simpl. rewrite (Hfg x (or_introl eq_refl)), IH; [reflexivity |].
  intros y Hy. apply Hfg. now right.
Qed.

Section Externals.

Variable get_mbf_sets_summer : bool -> bool -> nat -> fl -> string -> mbf_sets.
Variable hid_beta_f : nat -> list fl -> fl -> fl -> fl -> list fl.
Variable get_hid_traps : nat -> list fl -> list fl.

(** Without polarimetric variables neither branch of the loop reads the
    weights, the weight sum or the variable list. *)
Lemma test_loop_no_pol_indep (fhc_vars : dict Z) (w1 w2 : weight_table)
    (radar_data : dict (list fl)) (sets : key -> mbf) (vl1 vl2 : list key)
    (ws1 ws2 : fl) (trap_flag use_temp : bool) (method : string) (sz : nat)
    (cs : list nat) :
  forall (test : option ndval) (test_list : list ndval),
    test_loop hid_beta_f get_hid_traps fhc_vars w1 radar_data sets vl1 ws1
      false trap_flag use_temp method sz cs test test_list =
    test_loop hid_beta_f get_hid_traps fhc_vars w2 radar_data sets vl2 ws2
      false trap_flag use_temp method sz cs test test_list.
Proof.
  induction cs as [| c cs IH]; intros test test_list; [reflexivity |].
  cbn [test_loop].
  change (species_test hid_beta_f get_hid_traps fhc_vars w1 radar_data sets
            vl1 ws1 false trap_flag use_temp method sz c test)
    with (species_test hid_beta_f get_hid_traps fhc_vars w2 radar_data sets
            vl2 ws2 false trap_flag use_temp method sz c test).
  destruct (species_test _ _ _ _ _ _ _ _ _ _ _ _ _ _ _) as [t' | e];
    [| reflexivity].
  cbn [bind]. destruct (load t') as [t | e]; [| reflexivity].
  cbn [bind]. apply IH.
Qed.

(** X11: when none of [zdr], [kdp], [rho], [ldr] is passed the weight
    table is never used: two calls that differ only in their weights give
    the same outcome, whatever the method. *)
Theorem csu_fhc_summer_weights_unused_without_pol :
  forall (use_temp : bool) (w1 w2 : weight_table) (method : string)
         (dz T_ : option measurand)
         (plot_flag use_trap : bool) (n_types : nat) (temp_factor : fl)
         (band : string) (return_scores : bool),
    csu_fhc_summer get_mbf_sets_summer hid_beta_f get_hid_traps
      use_temp w1 method dz None None None None T_
      plot_flag use_trap n_types temp_factor band return_scores =
    csu_fhc_summer get_mbf_sets_summer hid_beta_f get_hid_traps
      use_temp w2 method dz None None None None T_
      plot_flag use_trap n_types temp_factor band return_scores.
Proof.
  intros use_temp w1 w2 method dz T_ plot_flag use_trap n_types temp_factor
         band return_scores.
  destruct dz as [v |]; [| reflexivity].
  destruct (populate_vars_no_pol v T_)
    as (radar_data & fhc_vars & Hpop & Hdr & Hkd & Hld & Hrh & Hall).
  assert (Hpol : _get_pol_flag fhc_vars = Ok false).
  { unfold _get_pol_flag, getd. rewrite Hdr, Hkd, Hld, Hrh. reflexivity. }
  unfold csu_fhc_summer. rewrite Hpop, Hpol.
  set (ut := match T_ with Some _ => use_temp | None => false end).
  set (fv := if ut then fhc_vars else setitem fhc_vars T 0%Z).
  assert (Hfv : forall k, exists z, fv k = Some z).
  { unfold fv. destruct ut; [exact Hall | now apply setitem_total]. }
  destruct (get_weight_sum_shape fv w1 method Hfv) as [ws1 H1].
  destruct (get_weight_sum_shape fv w2 method Hfv) as [ws2 H2].
  rewrite H1, H2.
  destruct (str_in "hybrid" method); [| destruct (str_in "linear" method)];
    try reflexivity;
    unfold _get_test_list;
    rewrite (test_loop_no_pol_indep fv w1 w2 _ _ _ _ ws1 ws2);
    reflexivity.
Qed.

Lemma test_loop_method (fhc_vars : dict Z) (weights : weight_table)
    (radar_data : dict (list fl)) (sets : key -> mbf) (varlist : list key)
    (weight_sum : fl) (pol_flag trap_flag use_temp : bool) (m1 m2 : string)
    (sz : nat) (cs : list nat) :
  str_in "hybrid" m1 = str_in "hybrid" m2 ->
  (str_in "hybrid" m1 = false -> str_in "linear" m1 = str_in "linear" m2) ->
  forall (test : option ndval) (test_list : list ndval),
    test_loop hid_beta_f get_hid_traps fhc_vars weights radar_data sets
      varlist weight_sum pol_flag trap_flag use_temp m1 sz cs test test_list =
    test_loop hid_beta_f get_hid_traps fhc_vars weights radar_data sets
      varlist weight_sum pol_flag trap_flag use_temp m2 sz cs test test_list.
Proof.
  intros Hh Hl.
  induction cs as [| c cs IH]; intros test test_list; [reflexivity |].
  cbn [test_loop].
  assert (Hs : species_test hid_beta_f get_hid_traps fhc_vars weights
                 radar_data sets varlist weight_sum pol_flag trap_flag
                 use_temp m1 sz c test =
               species_test hid_beta_f get_hid_traps fhc_vars weights
                 radar_data sets varlist weight_sum pol_flag trap_flag
                 use_temp m2 sz c test).
  { unfold species_test. rewrite <- Hh.
    destruct (str_in "hybrid" m1); [reflexivity |]. now rewrite Hl. }
  rewrite Hs. clear Hs.
  destruct (species_test _ _ _ _ _ _ _ _ _ _ _ _ _ _ _) as [t' | e];
    [| reflexivity].
  cbn [bind]. destruct (load t') as [t | e]; [| reflexivity].
  cbn [bind]. apply IH.
Qed.

Lemma csu_fhc_summer_method (m1 m2 : string) :
  str_in "hybrid" m1 = str_in "hybrid" m2 ->
  (str_in "hybrid" m1 = false -> str_in "linear" m1 = str_in "linear" m2) ->
  forall (use_temp : bool) (weights : weight_table)
         (dz zdr ldr kdp rho T_ : option measurand)
         (plot_flag use_trap : bool) (n_types : nat) (temp_factor : fl)
         (band : string) (return_scores : bool),
    csu_fhc_summer get_mbf_sets_summer hid_beta_f get_hid_traps
      use_temp weights m1 dz zdr ldr kdp rho T_
      plot_flag use_trap n_types temp_factor band return_scores =
    csu_fhc_summer get_mbf_sets_summer hid_beta_f get_hid_traps
      use_temp weights m2 dz zdr ldr kdp rho T_
      plot_flag use_trap n_types temp_factor band return_scores.
Proof.
  intros Hh Hl use_temp weights dz zdr ldr kdp rho T_ plot_flag use_trap
         n_types temp_factor band return_scores.
  unfold csu_fhc_summer.
  destruct dz as [v |]; [| reflexivity].
  destruct (_populate_vars (Some v) zdr kdp rho ldr T_)
    as [[[[radar_data fhc_vars] shp] sz] | e]; [| reflexivity].
  destruct (_get_pol_flag fhc_vars) as [pol_flag | e]; [| reflexivity].
  assert (Hws : forall fv, _get_weight_sum fv weights m1 =
                           _get_weight_sum fv weights m2).
  { intros fv. unfold _get_weight_sum. rewrite <- Hh.
    destruct (str_in "hybrid" m1); [reflexivity |]. now rewrite Hl. }
  rewrite Hws.
  destruct (_get_weight_sum _ weights m2) as [out [[[weight_sum varlist] |] | e]];
    try reflexivity.
  unfold _get_test_list.
  rewrite (test_loop_method _ _ _ _ _ _ _ _ _ m1 m2 _ _ Hh Hl). reflexivity.
Qed.

(** X12: the method string is only searched for the two substrings, and
    ['hybrid'] is searched first: a method containing ['hybrid'] behaves as
    ['hybrid'] even when it contains ['linear'] too, and a method containing
    ['linear'] but not ['hybrid'] behaves as ['linear']. *)
Theorem csu_fhc_summer_method_by_substring :
  forall (method : string) (use_temp : bool) (weights : weight_table)
         (dz zdr ldr kdp rho T_ : option measurand)
         (plot_flag use_trap : bool) (n_types : nat) (temp_factor : fl)
         (band : string) (return_scores : bool),
    str_in "hybrid" method = true \/
    (str_in "hybrid" method = false /\ str_in "linear" method = true) ->
    csu_fhc_summer get_mbf_sets_summer hid_beta_f get_hid_traps
      use_temp weights method dz zdr ldr kdp rho T_
      plot_flag use_trap n_types temp_factor band return_scores =
    csu_fhc_summer get_mbf_sets_summer hid_beta_f get_hid_traps
      use_temp weights
      (if str_in "hybrid" method then "hybrid" else "linear")%string
      dz zdr ldr kdp rho T_
      plot_flag use_trap n_types temp_factor band return_scores.
Proof.
  intros method use_temp weights dz zdr ldr kdp rho T_ plot_flag use_trap
         n_types temp_factor band return_scores [Hh | [Hh Hl]]; rewrite Hh.
  - apply csu_fhc_summer_method; [rewrite Hh; reflexivity |].
    intros Hf. congruence.
  - apply csu_fhc_summer_method; [rewrite Hh; reflexivity |].
    intros _. rewrite Hl. reflexivity.
Qed.

(** With the temperature key outside the variable list, the trapezoid
    variant of the weighted sum is the plain one. *)
Lemma calculate_test_trap_without_T (fhc_vars : dict Z) (weights : weight_table)
    (radar_data : dict (list fl)) (sets : key -> mbf) (varlist : list key)
    (weight_sum : fl) (c sz : nat) :
  ~ In T varlist ->
  _calculate_test_trap hid_beta_f get_hid_traps fhc_vars weights radar_data
    sets varlist weight_sum c sz =
  _calculate_test hid_beta_f fhc_vars weights radar_data sets varlist
    weight_sum c sz.
Proof.
  intros HT. unfold _calculate_test_trap, _calculate_test.
  rewrite (mapM_ext_in _
             (fun k => weighted_beta hid_beta_f fhc_vars weights radar_data
                         sets sz k c)); [reflexivity |].
  intros k Hk. apply filter_In in Hk. destruct Hk as [Hk _].
  destruct k; try reflexivity. contradiction.
Qed.

Lemma test_loop_trap_without_T (fhc_vars : dict Z) (weights : weight_table)
    (radar_data : dict (list fl)) (sets : key -> mbf) (varlist : list key)
    (weight_sum : fl) (pol_flag use_temp : bool) (method : string)
    (sz : nat) (cs : list nat) :
  ~ In T varlist ->
  forall (test : option ndval) (test_list : list ndval),
    test_loop hid_beta_f get_hid_traps fhc_vars weights radar_data sets
      varlist weight_sum pol_flag true use_temp method sz cs test test_list =
    test_loop hid_beta_f get_hid_traps fhc_vars weights radar_data sets
      varlist weight_sum pol_flag false use_temp method sz cs test test_list.
Proof.
  intros HT.
  induction cs as [| c cs IH]; intros test test_list; [reflexivity |].
  cbn [test_loop].
  assert (Hs : species_test hid_beta_f get_hid_traps fhc_vars weights
                 radar_data sets varlist weight_sum pol_flag true
                 use_temp method sz c test =
               species_test hid_beta_f get_hid_traps fhc_vars weights
                 radar_data sets varlist weight_sum pol_flag false
                 use_temp method sz c test).
  { unfold species_test, pol_core.
    now rewrite (calculate_test_trap_without_T _ _ _ _ _ _ _ _ HT). }
  rewrite Hs. clear Hs.
  destruct (species_test _ _ _ _ _ _ _ _ _ _ _ _ _ _ _) as [t' | e];
    [| reflexivity].
  cbn [bind]. destruct (load t') as [t | e]; [| reflexivity].
  cbn [bind]. apply IH.
Qed.

(** X13: in the hybrid method [use_trap] changes nothing: the weighted
    sum runs over the polarimetric keys only, so the trapezoid branch for
    the key ['T'] is never taken, and temperature is folded in with the
    beta function in either case. *)
Theorem csu_fhc_summer_hybrid_ignores_use_trap :
  forall (use_temp : bool) (weights : weight_table) (method : string)
         (dz zdr ldr kdp rho T_ : option measurand)
         (plot_flag : bool) (n_types : nat) (temp_factor : fl)
         (band : string) (return_scores : bool),
    str_in "hybrid" method = true ->
    csu_fhc_summer get_mbf_sets_summer hid_beta_f get_hid_traps
      use_temp weights method dz zdr ldr kdp rho T_
      plot_flag true n_types temp_factor band return_scores =
    csu_fhc_summer get_mbf_sets_summer hid_beta_f get_hid_traps
      use_temp weights method dz zdr ldr kdp rho T_
      plot_flag false n_types temp_factor band return_scores.
Proof.
  intros use_temp weights method dz zdr ldr kdp rho T_ plot_flag n_types
         temp_factor band return_scores Hh.
  destruct dz as [v |]; [| reflexivity].
  destruct (populate_vars_some v zdr kdp rho ldr T_)
    as (radar_data & fhc_vars & Hpop & Hall).
  destruct (get_pol_flag_total fhc_vars Hall) as [pol_flag Hpol].
  unfold csu_fhc_summer. rewrite Hpop, Hpol.
  set (ut := match T_ with Some _ => use_temp | None => false end).
  set (fv := if ut then fhc_vars else setitem fhc_vars T 0%Z).
  assert (Hfv : forall k, exists z, fv k = Some z).
  { unfold fv. destruct ut; [exact Hall | now apply setitem_total]. }
  destruct (get_weight_sum_shape fv weights method Hfv) as [ws Hws].
  rewrite Hws, Hh. unfold _get_test_list.
  rewrite test_loop_trap_without_T; [reflexivity |].
  cbn [In]. intros [H | [H | [H | [H | H]]]]; try discriminate; exact H.
Qed.



(** X16: the two return modes agree: when the call with
    [return_scores=True] returns a cube, the same call with
    [return_scores=False] returns the arg-max of that cube along its first
    axis, plus 1, with the remaining shape (and raises where the arg-max
    does, that is for [n_types = 0]). *)
Theorem csu_fhc_summer_categories_from_scores :
  forall (use_temp : bool) (weights : weight_table) (method : string)
         (dz zdr ldr kdp rho T_ : option measurand)
         (plot_flag use_trap : bool) (n_types : nat) (temp_factor : fl)
         (band : string)
         (out : list string) (shp : list nat) (dat : list fl),
    csu_fhc_summer get_mbf_sets_summer hid_beta_f get_hid_traps
      use_temp weights method dz zdr ldr kdp rho T_
      plot_flag use_trap n_types temp_factor band true =
    (out, Ok (Some (Scores shp dat))) ->
    csu_fhc_summer get_mbf_sets_summer hid_beta_f get_hid_traps
      use_temp weights method dz zdr ldr kdp rho T_
      plot_flag use_trap n_types temp_factor band false =
    (out, hid <- argmax_axis0_plus1 n_types (List.tl shp) dat ;;
          Ok (Some (Categories (List.tl shp) hid))).
Proof.
  intros use_temp weights method dz zdr ldr kdp rho T_ plot_flag use_trap
         n_types temp_factor band out shp dat Hcall.
  unfold csu_fhc_summer in *.
  destruct dz as [v |]; [| discriminate].
  destruct (_populate_vars (Some v) zdr kdp rho ldr T_)
    as [[[[radar_data fhc_vars] shp0] sz] | e]; [| discriminate].
  destruct (_get_pol_flag fhc_vars) as [pol_flag | e]; [| discriminate].
  destruct (_get_weight_sum _ _ _) as [out' [[[weight_sum varlist] |] | e]];
    try discriminate.
  injection Hcall as Hout Hcall. subst out'.
  destruct (_get_test_list _ _ _ _ _ _ _ _ _ _ _ _ _) as [[tl |] | e];
    cbn [bind] in *; try discriminate.
  destruct (np_array tl) as [mu | e]; cbn [bind] in *; [| discriminate].
  destruct (reshape (snd mu) (n_types :: shp0)) as [cube | e];
    cbn [bind] in *; [| discriminate].
  injection Hcall as Hshp Hdat. subst shp dat. reflexivity.
Qed.

(** *** Division by a zero weight sum *)

Lemma xdiv_by_zero_not_finite (x : fl) (q : Q) :
  (q == 0)%Q -> finite (xdiv x (Fin q)) = false.
Proof.
  intros Hq. apply Qeq_alt in Hq.
  destruct x as [a | | |]; cbn [xdiv]; unfold sgn; cbn [ncmp n0 Num_Q];
    try rewrite Hq; try reflexivity.
  destruct (a ?= 0)%Q; reflexivity.
Qed.

Lemma div_scalar_by_zero (v : ndval) (q : Q) :
  (q == 0)%Q -> nowhere_finite (div_scalar v (Fin q)).
Proof.
  intros Hq. destruct v as [x | l]; cbn [div_scalar nowhere_finite].
  - now apply xdiv_by_zero_not_finite.
  - apply Forall_forall. intros y Hy. apply in_map_iff in Hy.
    destruct Hy as [x [Hx _]]. subst y. now apply xdiv_by_zero_not_finite.
Qed.

(** X17: the weighted sum of a species is divided by the weight sum
    without any test: when the weight sum is zero, every entry that
    [_calculate_test] or [_calculate_test_trap] returns is infinite or NaN,
    never a finite score. *)
Theorem calculate_test_zero_weight_sum_not_finite :
  forall (fhc_vars : dict Z) (weights : weight_table)
         (radar_data : dict (list fl)) (sets : key -> mbf)
         (varlist : list key) (q : Q) (c sz : nat) (r : ndval),
    (q == 0)%Q ->
    (_calculate_test hid_beta_f fhc_vars weights radar_data sets
       varlist (Fin q) c sz = Ok r \/
     _calculate_test_trap hid_beta_f get_hid_traps fhc_vars weights radar_data
       sets varlist (Fin q) c sz = Ok r) ->
    nowhere_finite r.
Proof.
  intros fhc_vars weights radar_data sets varlist q c sz r Hq [Hr | Hr];
    [unfold _calculate_test in Hr | unfold _calculate_test_trap in Hr];
    destruct (mapM _ _) as [rows | e]; cbn [bind] in Hr; try discriminate;
    destruct (np_sum_axis0 rows) as [s | e]; cbn [bind] in Hr; try discriminate;
    injection Hr as Hr; subst r; now apply div_scalar_by_zero.
Qed.

(** *** A well-formed hybrid call returns *)

Section WellFormed.

Variables (n sz : nat) (sets : key -> mbf) (radar_data : dict (list fl)).

Hypothesis hid_beta_f_size :
  forall (x : list fl) (a b m : fl),
    List.length (hid_beta_f (List.length x) x a b m) = List.length x.

Hypothesis data_size :
  forall (k : key) (x : list fl), radar_data k = Some x -> List.length x = sz.

Hypothesis sets_size :
  forall k : key,
    List.length (set_a (sets k)) = n /\
    List.length (set_b (sets k)) = n /\
    List.length (set_m (sets k)) = n.















End WellFormed.


End Externals.

(** *** Concrete runs *)

Lemma csu_fhc_summer_method_by_substring_witness :
  sample_call true DEFAULT_WEIGHTS "hybrid and linear"
    (Some (one_bin 5)) (Some (one_bin 1)) None None None (Some (one_bin 3)) false =
  sample_call true DEFAULT_WEIGHTS "hybrid"
    (Some (one_bin 5)) (Some (one_bin 1)) None None None (Some (one_bin 3)) false.
Proof.
  apply (csu_fhc_summer_method_by_substring sample_sets sample_beta_f sample_traps
           "hybrid and linear").
  left. reflexivity.
Defined.

Lemma csu_fhc_summer_hybrid_ignores_use_trap_witness :
  csu_fhc_summer sample_sets sample_beta_f sample_traps true DEFAULT_WEIGHTS
    "hybrid" (Some (one_bin 5)) (Some (one_bin 1)) None None None
    (Some (one_bin 3)) false true 2 (Fin 1%Q) "S" false =
  csu_fhc_summer sample_sets sample_beta_f sample_traps true DEFAULT_WEIGHTS
    "hybrid" (Some (one_bin 5)) (Some (one_bin 1)) None None None
    (Some (one_bin 3)) false false 2 (Fin 1%Q) "S" false.
Proof.
  apply (csu_fhc_summer_hybrid_ignores_use_trap
           sample_sets sample_beta_f sample_traps).
  reflexivity.
Defined.



Lemma csu_fhc_summer_categories_from_scores_witness :
  sample_call true DEFAULT_WEIGHTS "hybrid"
    (Some (one_bin 5)) (Some (one_bin 1)) None None None (Some (one_bin 3)) false =
  ([], hid <- argmax_axis0_plus1 2 (List.tl [2; 1])
                [Fin (8000 # 4160000); Fin (512000 # 1045160000)] ;;
       Ok (Some (Categories (List.tl [2; 1]) hid))).
Proof.
  apply (csu_fhc_summer_categories_from_scores
           sample_sets sample_beta_f sample_traps).
  vm_compute. reflexivity.
Defined.

Lemma calculate_test_zero_weight_sum_not_finite_witness :
  nowhere_finite (Arr [PInf; PInf]).
Proof.
  apply (calculate_test_zero_weight_sum_not_finite sample_beta_f sample_traps
           (fun _ => Some 1%Z) DEFAULT_WEIGHTS
           (fun _ => Some [Fin 1%Q; Fin 0%Q]) (fun _ => sample_mbf)
           [DR; KD] (0 # 3) 0 2).
  - reflexivity.
  - left. vm_compute. reflexivity.
Defined.


End SummerExtra.


(** ** The winter blend: outcome, store and bins *)

Module WinterExtra.

Import Summer Winter WinterFacts SummerFacts.
Local Open Scope nat_scope.

Lemma print_framed (h0 : list (list Z)) (out : list string)
    (cells : list (list Z)) (s : string) :
  print s (framed h0 out cells) = Ok (tt, framed h0 (out ++ [s]) cells).
Proof. reflexivity. Qed.

Lemma length_renumber_warm (w : list Z) :
  List.length (renumber_warm w) = List.length w.
Proof. unfold renumber_warm. now rewrite !length_fill. Qed.

Lemma argmax_axis0_plus1_pos (n : nat) (rest : list nat) (dat : list fl) :
  0 < n ->
  exists l,
    argmax_axis0_plus1 n rest dat = Ok l /\
    List.length l = prod_shape rest /\
    Forall (fun x => (1 <= x <= Z.of_nat n)%Z) l.
Proof.
  intros Hn. unfold argmax_axis0_plus1. destruct n as [| n']; [lia |].
  eexists. split; [reflexivity |]. split.
  - now rewrite length_map, length_seq.
  - apply Forall_forall. intros x Hx. apply in_map_iff in Hx.
    destruct Hx as [j [Hj _]]. subst x.
    assert (Hlt : argmax (column (S n') (prod_shape rest) dat j) < S n').
    { rewrite <- (column_length (S n') (prod_shape rest) dat j) at 2.
      apply argmax_lt. intros Hnil.
      apply (f_equal (@List.length fl)) in Hnil.
      rewrite column_length in Hnil. discriminate. }
    lia.
Qed.

Lemma argmax_axis0_plus1_raises (n : nat) (rest : list nat) (dat : list fl)
    (e : exn) :
  argmax_axis0_plus1 n rest dat = Raise e -> e = ValueError.
Proof.
  unfold argmax_axis0_plus1. destruct n; [| discriminate].
  intros He. now injection He as <-.
Qed.

Lemma argmax_axis0_plus1_range (n : nat) (rest : list nat) (dat : list fl)
    (l : list Z) :
  argmax_axis0_plus1 n rest dat = Ok l ->
  List.length l = prod_shape rest /\
  Forall (fun x => (1 <= x <= Z.of_nat n)%Z) l.
Proof.
  intros Hl. pose proof (argmax_axis0_plus1_ok n rest dat l Hl) as [Hn _].
  destruct (argmax_axis0_plus1_pos n rest dat Hn) as (l' & Hl' & Hlen & Hr).
  rewrite Hl in Hl'. injection Hl' as <-. now split.
Qed.

Lemma renumber_warm_bin (w : list Z) (i : nat) (x : Z) :
  nth_error w i = Some x ->
  nth_error (renumber_warm w) i =
  Some (if (x =? 1)%Z then 6%Z else if (x =? 2)%Z then 7%Z else x).
Proof.
  intros Hx. unfold renumber_warm.
  pose proof (nth_error_fill _ _ 6%Z i _ _ Hx (nth_error_eq_mask w 1 i x Hx)) as H1.
  rewrite (nth_error_fill _ _ 7%Z i _ _ H1 (nth_error_eq_mask _ 2 i _ H1)).
  destruct (x =? 1)%Z; reflexivity.
Qed.

Lemma renumber_warm_range (w : list Z) (n : nat) :
  Forall (fun x => (1 <= x <= Z.of_nat n)%Z) w ->
  Forall (fun x => (3 <= x)%Z /\ (x = 6 \/ x = 7 \/ x <= Z.of_nat n)%Z)
         (renumber_warm w).
Proof.
  intros Hw. apply Forall_forall. intros y Hy.
  apply In_nth_error in Hy. destruct Hy as [i Hi].
  destruct (nth_error_same_length (renumber_warm w) w i y
              (eq_sym (length_renumber_warm w)) Hi) as [x Hx].
  rewrite (renumber_warm_bin w i x Hx) in Hi. injection Hi as Hi.
  rewrite Forall_forall in Hw. pose proof (Hw x (nth_error_In _ _ Hx)) as Hr.
  destruct (x =? 1)%Z eqn:E1; [lia |].
  destruct (x =? 2)%Z eqn:E2; [lia |].
  apply Z.eqb_neq in E1. apply Z.eqb_neq in E2. lia.
Qed.

(** One statement of [run_winter] executed in the goal. *)
Ltac execg :=
  unfold mbind at 1;
  first [ rewrite alloc_framed
        | rewrite read_framed
        | rewrite setitem_mask_scalar_framed
        | rewrite getitem_mask_framed
        | rewrite argmax_plus1_framed
        | rewrite print_framed ];
  cbn [List.length app nth set_nth].

Section Externals.

Variable melting_layer :
  option measurand -> option measurand -> option measurand ->
  option measurand -> option measurand -> option measurand ->
  string -> bool -> string -> string -> option measurand ->
  fl -> fl -> fl -> nat -> ml_result.
Variable csu_fhc_winter :
  option measurand -> option measurand -> option measurand ->
  option measurand -> bool -> option measurand -> string ->
  bool -> bool -> string -> cube.

(** The whole of [run_winter] in closed form: the two arg-max calls, the
    three shape tests of the masked assignments, and the final store. *)
Lemma run_winter_computes
    (dz zdr rho kdp ldr sn T_ : option measurand)
    (use_temp : bool) (band method : string) (sn_thresh expected_ML : fl)
    (nsect : nat) (return_scores : bool) (azimuths : option measurand)
    (verbose : bool) (minRH : fl) (scan_type : string)
    (heights : option measurand) (fdir : string)
    (h0 : list (list Z)) (out : list string) :
  let res := melting_layer dz zdr kdp rho sn heights scan_type verbose band
               fdir azimuths expected_ML minRH sn_thresh nsect in
  let scores_warm :=
    csu_fhc_winter dz zdr None kdp true T_ "C"%string true verbose fdir in
  let scores_cold :=
    csu_fhc_winter dz zdr None kdp true T_ "C"%string false verbose fdir in
  let fh := remap_wet_snow (ml_fh res) in
  let grid := String.eqb scan_type "grid" in
  run_winter melting_layer csu_fhc_winter dz zdr rho kdp ldr sn T_ use_temp
    band method sn_thresh expected_ML nsect return_scores azimuths verbose
    minRH scan_type heights fdir (framed h0 out []) =
  match argmax_axis0_plus1 (c_rows scores_warm) (c_rest scores_warm)
          (c_data scores_warm) with
  | Raise e => Raise e
  | Ok w0 =>
      match argmax_axis0_plus1 (c_rows scores_cold) (c_rest scores_cold)
              (c_data scores_cold) with
      | Raise e => Raise e
      | Ok fhcold =>
          if negb (List.length w0 =? List.length (ml_meltlev res))
          then Raise IndexError
          else if negb (List.length (ml_fh res) =? List.length (ml_meltlev res))
          then Raise IndexError
          else if negb (List.length fhcold =? List.length (ml_meltlev res))
          then Raise IndexError
          else
            Ok (if return_scores
                then HcaScores (List.length h0 + 4)
                       {| ML := ml_scores res; warm := scores_warm;
                          cold := scores_cold |}
                       {| ML := List.length h0 + 1; warm := List.length h0 + 2;
                          cold := List.length h0 + 3 |}
                else Hca (List.length h0 + 4),
                framed h0
                  (if grid && verbose
                   then out ++ ["Note: Things get weird at the melting level in a gridded file."%string]
                   else out)
                  [ml_meltlev res; fh; renumber_warm w0; fhcold;
                   melt_overrides fh
                     (regime_assignment grid (ml_meltlev res)
                        (renumber_warm w0) fhcold
                        (map (fun _ => (0 - 1)%Z) fh))])
      end
  end.
Proof.
  intros res scores_warm scores_cold fh grid.
  unfold run_winter. fold res scores_warm scores_cold.
  execg. execg. execg.
  destruct (argmax_axis0_plus1 (c_rows scores_warm) _ _) as [w0 | e];
    [| reflexivity].
  cbn [List.length app].
  execg. execg.
  rewrite length_eq_mask, Nat.eqb_refl. cbn [set_nth].
  execg. execg.
  rewrite length_eq_mask, Nat.eqb_refl. cbn [set_nth].
  fold (renumber_warm w0).
  execg.
  destruct (argmax_axis0_plus1 (c_rows scores_cold) _ _) as [fhcold | e];
    [| reflexivity].
  cbn [List.length app].
  execg. execg.
  rewrite length_eq_mask, Nat.eqb_refl. cbn [set_nth].
  fold (remap_wet_snow (ml_fh res)). fold fh.
  assert (Hfh : List.length fh = List.length (ml_fh res))
    by (unfold fh, remap_wet_snow; apply length_fill).
  execg. execg. execg. execg.
  rewrite length_eq_mask, length_renumber_warm.
  destruct (List.length w0 =? List.length (ml_meltlev res)) eqn:Hlw;
    cbn [negb]; [| reflexivity].
  apply Nat.eqb_eq in Hlw.
  unfold mbind at 1.
  rewrite setitem_mask_framed
    by (now rewrite length_eq_mask, length_renumber_warm).
  cbn [nth]. rewrite length_map, length_eq_mask, Hfh.
  destruct (List.length (ml_fh res) =? List.length (ml_meltlev res)) eqn:Hlf;
    cbn [negb]; [| reflexivity].
  apply Nat.eqb_eq in Hlf. cbn [set_nth].
  execg. rewrite length_eq_mask.
  destruct (List.length fhcold =? List.length (ml_meltlev res)) eqn:Hlc;
    cbn [negb]; [| reflexivity].
  apply Nat.eqb_eq in Hlc.
  unfold mbind at 1.
  rewrite setitem_mask_framed by (now rewrite length_eq_mask).
  cbn [nth].
  rewrite length_scatter, length_map, length_eq_mask, Hfh, Hlf, Nat.eqb_refl.
  cbn [set_nth].
  fold (assign_where (map (fun _ : Z => (0 - 1)%Z) fh)
          (eq_mask (ml_meltlev res) 0) (renumber_warm w0)).
  match goal with
  | |- context [scatter ?d ?m (select fhcold ?m)] =>
      fold (assign_where d m fhcold); set (w2 := assign_where d m fhcold)
  end.
  assert (Hw2 : List.length w2 = List.length (ml_meltlev res)).
  { unfold w2, assign_where. rewrite !length_scatter, length_map. congruence. }
  unfold regime_assignment. fold w2.
  set (w3 := if grid
             then assign_where w2 (eq_mask (ml_meltlev res) 1) fhcold
             else w2).
  assert (Hw3 : List.length w3 = List.length fh).
  { unfold w3, assign_where. destruct grid; rewrite ?length_scatter; congruence. }
  set (out' := if grid && verbose
               then out ++ ["Note: Things get weird at the melting level in a gridded file."%string]
               else out).
  change (String.eqb scan_type "grid") with grid.
  unfold mbind at 1.
  match goal with
  | |- context [(if grid then ?c else ret tt) ?st] =>
      assert (Hgrid : (if grid then c else ret tt) st =
                      Ok (tt, framed h0 out'
                                [ml_meltlev res; fh; renumber_warm w0; fhcold; w3]))
  end.
  { unfold w3, out'. destruct grid; [| reflexivity]. cbn [andb].
    unfold mbind at 1.
    assert (Hpr : (if verbose
                   then print "Note: Things get weird at the melting level in a gridded file."
                   else ret tt)
                    (framed h0 out [ml_meltlev res; fh; renumber_warm w0; fhcold; w2]) =
                  Ok (tt, framed h0
                            (if verbose
                             then out ++ ["Note: Things get weird at the melting level in a gridded file."%string]
                             else out)
                            [ml_meltlev res; fh; renumber_warm w0; fhcold; w2]))
      by (destruct verbose; reflexivity).
    rewrite Hpr.
    unfold mbind at 1. rewrite getitem_mask_framed. cbn [nth].
    rewrite length_eq_mask, Hlc, Nat.eqb_refl.
    rewrite setitem_mask_framed by now rewrite length_eq_mask.
    cbn [nth]. rewrite length_eq_mask, Hw2, Nat.eqb_refl. reflexivity. }
  rewrite Hgrid. clear Hgrid.
  execg. execg.
  rewrite length_eq_mask, Hw3, Nat.eqb_refl. cbn [set_nth].
  execg. execg.
  rewrite length_eq_mask, length_fill, Hw3, Nat.eqb_refl. cbn [set_nth].
  execg. execg.
  rewrite length_eq_mask, !length_fill, Hw3, Nat.eqb_refl. cbn [set_nth].
  fold (melt_overrides fh w3).
  destruct return_scores; reflexivity.
Qed.

(** What a returning call has computed, store included. *)
Lemma run_winter_ok_inv
    (dz zdr rho kdp ldr sn T_ : option measurand)
    (use_temp : bool) (band method : string) (sn_thresh expected_ML : fl)
    (nsect : nat) (return_scores : bool) (azimuths : option measurand)
    (verbose : bool) (minRH : fl) (scan_type : string)
    (heights : option measurand) (fdir : string)
    (st : state) (r : returned) (st' : state) :
  run_winter melting_layer csu_fhc_winter dz zdr rho kdp ldr sn T_ use_temp
    band method sn_thresh expected_ML nsect return_scores azimuths verbose
    minRH scan_type heights fdir st = Ok (r, st') ->
  let res := melting_layer dz zdr kdp rho sn heights scan_type verbose band
               fdir azimuths expected_ML minRH sn_thresh nsect in
  let scores_warm :=
    csu_fhc_winter dz zdr None kdp true T_ "C"%string true verbose fdir in
  let scores_cold :=
    csu_fhc_winter dz zdr None kdp true T_ "C"%string false verbose fdir in
  let fh := remap_wet_snow (ml_fh res) in
  let grid := String.eqb scan_type "grid" in
  exists w0 fhcold,
    argmax_axis0_plus1 (c_rows scores_warm) (c_rest scores_warm)
      (c_data scores_warm) = Ok w0 /\
    argmax_axis0_plus1 (c_rows scores_cold) (c_rest scores_cold)
      (c_data scores_cold) = Ok fhcold /\
    List.length w0 = List.length (ml_meltlev res) /\
    List.length (ml_fh res) = List.length (ml_meltlev res) /\
    List.length fhcold = List.length (ml_meltlev res) /\
    winter_hca_of r = List.length (heap st) + 4 /\
    (return_scores = true ->
     exists w scores, r = HcaScores w scores
                            {| ML := List.length (heap st) + 1;
                               warm := List.length (heap st) + 2;
                               cold := List.length (heap st) + 3 |}) /\
    st' = framed (heap st)
            (if grid && verbose
             then stdout st ++ ["Note: Things get weird at the melting level in a gridded file."%string]
             else stdout st)
            [ml_meltlev res; fh; renumber_warm w0; fhcold;
             melt_overrides fh
               (regime_assignment grid (ml_meltlev res)
                  (renumber_warm w0) fhcold
                  (map (fun _ => (0 - 1)%Z) fh))].
Proof.
  intros Hrun res scores_warm scores_cold fh grid.
  rewrite (framed_nil st) in Hrun. rewrite run_winter_computes in Hrun.
  cbv zeta in Hrun. fold res scores_warm scores_cold fh grid in Hrun.
  destruct (argmax_axis0_plus1 (c_rows scores_warm) _ _) as [w0 | e];
    [| discriminate].
  destruct (argmax_axis0_plus1 (c_rows scores_cold) _ _) as [fhcold | e];
    [| discriminate].
  destruct (List.length w0 =? _) eqn:Hlw; cbn [negb] in Hrun; [| discriminate].
  destruct (List.length (ml_fh res) =? _) eqn:Hlf; cbn [negb] in Hrun;
    [| discriminate].
  destruct (List.length fhcold =? _) eqn:Hlc; cbn [negb] in Hrun; [| discriminate].
  apply Nat.eqb_eq in Hlw, Hlf, Hlc.
  injection Hrun as Hr Hst.
  exists w0, fhcold. repeat (split; [reflexivity || assumption |]).
  split; [rewrite <- Hr; now destruct return_scores |].
  split; [| now rewrite <- Hst].
  intros ->. rewrite <- Hr. now eexists; eexists.
Qed.

(** X19: the arg-max over the species axis needs at least one species:
    when the warm or the cold score cube that [csu_fhc_winter] returns has
    no species row, [run_winter] raises ValueError. *)
Theorem run_winter_empty_species_axis :
  forall (dz zdr rho kdp ldr sn T_ : option measurand)
         (use_temp : bool) (band method : string) (sn_thresh expected_ML : fl)
         (nsect : nat) (return_scores : bool) (azimuths : option measurand)
         (verbose : bool) (minRH : fl) (scan_type : string)
         (heights : option measurand) (fdir : string) (st : state),
    c_rows (csu_fhc_winter dz zdr None kdp true T_ "C"%string true verbose fdir) = 0 \/
    c_rows (csu_fhc_winter dz zdr None kdp true T_ "C"%string false verbose fdir) = 0 ->
    run_winter melting_layer csu_fhc_winter dz zdr rho kdp ldr sn T_ use_temp
      band method sn_thresh expected_ML nsect return_scores azimuths verbose
      minRH scan_type heights fdir st = Raise ValueError.
Proof.
  intros dz zdr rho kdp ldr sn T_ use_temp band method sn_thresh expected_ML
         nsect return_scores azimuths verbose minRH scan_type heights fdir st
         Hrows.
  rewrite (framed_nil st), run_winter_computes. cbv zeta.
  destruct Hrows as [Hw | Hc].
  - rewrite Hw. reflexivity.
  - rewrite Hc.
    destruct (argmax_axis0_plus1 _ _ _) as [w0 | e] eqn:Hw0; [reflexivity |].
    apply argmax_axis0_plus1_raises in Hw0. now subst e.
Qed.



(** X22: the final category of a bin, as a function of the bin's melt
    level [m], melt category [f], warm category [w] and cold category [c]:
    no data where [f] is 0 or -1, wet snow where [f] is 2 or 5, otherwise
    the cold category inside the melting level of a gridded scan and above
    it, the warm category below it, and -1 elsewhere. *)
Theorem run_winter_bin :
  forall (dz zdr rho kdp ldr sn T_ : option measurand)
         (use_temp : bool) (band method : string) (sn_thresh expected_ML : fl)
         (nsect : nat) (return_scores : bool) (azimuths : option measurand)
         (verbose : bool) (minRH : fl) (scan_type : string)
         (heights : option measurand) (fdir : string)
         (st : state) (r : returned) (st' : state),
    run_winter melting_layer csu_fhc_winter dz zdr rho kdp ldr sn T_ use_temp
      band method sn_thresh expected_ML nsect return_scores azimuths verbose
      minRH scan_type heights fdir st = Ok (r, st') ->
    let res := melting_layer dz zdr kdp rho sn heights scan_type verbose band
                 fdir azimuths expected_ML minRH sn_thresh nsect in
    forall (i : nat) (m f : Z),
      nth_error (ml_meltlev res) i = Some m ->
      nth_error (ml_fh res) i = Some f ->
      exists w c : Z,
        nth_error (deref st' (List.length (heap st) + 2)) i = Some w /\
        nth_error (deref st' (List.length (heap st) + 3)) i = Some c /\
        nth_error (deref st' (winter_hca_of r)) i =
        Some (if ((f =? 0) || (f =? -1))%Z then (-1)%Z
              else if ((f =? 2) || (f =? 5))%Z then 5%Z
                   else if String.eqb scan_type "grid" && (m =? 1)%Z then c
                        else if (m =? 2)%Z then c
                             else if (m =? 0)%Z then w else (-1)%Z).
Proof.
  intros dz zdr rho kdp ldr sn T_ use_temp band method sn_thresh expected_ML
         nsect return_scores azimuths verbose minRH scan_type heights fdir
         st r st' Hrun res i m f Hm Hf.
  apply run_winter_ok_inv in Hrun. cbv zeta in Hrun. fold res in Hrun.
  destruct Hrun as (w0 & fc & _ & _ & Hlw & Hlf & Hlc & Hloc & _ & Hst).
  rewrite Hloc, Hst, !deref_framed. cbn [nth].
  destruct (nth_error_same_length (ml_meltlev res) (renumber_warm w0) i m)
    as [w Hw]; [now rewrite length_renumber_warm | exact Hm |].
  destruct (nth_error_same_length (ml_meltlev res) fc i m Hlc Hm) as [c Hc].
  exists w, c. split; [exact Hw |]. split; [exact Hc |].
  pose proof (remap_wet_snow_bin (ml_fh res) i f Hf) as Hf'.
  assert (Hbase : nth_error (map (fun _ : Z => (0 - 1)%Z) (remap_wet_snow (ml_fh res))) i
                  = Some (-1)%Z).
  { rewrite nth_error_map, Hf'. reflexivity. }
  pose proof (regime_assignment_bin (String.eqb scan_type "grid") _ _ _ _ i
                m w c (-1)%Z Hm Hw Hc Hbase) as Hreg.
  destruct (melt_overrides_bin (remap_wet_snow (ml_fh res))
              (regime_assignment (String.eqb scan_type "grid") (ml_meltlev res)
                 (renumber_warm w0) fc
                 (map (fun _ : Z => (0 - 1)%Z) (remap_wet_snow (ml_fh res))))
              i (if (f =? 2)%Z then 5%Z else f)) as (x & Hx & Hbin);
    [| exact Hf' |].
  { rewrite length_regime_assignment. apply length_map. }
  rewrite Hreg in Hx. injection Hx as Hx. subst x. rewrite Hbin.
  f_equal.
  destruct (f =? 2)%Z eqn:E2.
  - apply Z.eqb_eq in E2. subst f. reflexivity.
  - cbn [orb]. destruct (f =? 0)%Z; [reflexivity |].
    destruct (f =? -1)%Z; reflexivity.
Qed.

(** X23: the returned categories never contain 0: every entry is -1 or
    at least 1 (the list of the docstring gives 0 to unclassified bins; the
    code gives them -1). *)
Theorem run_winter_never_zero :
  forall (dz zdr rho kdp ldr sn T_ : option measurand)
         (use_temp : bool) (band method : string) (sn_thresh expected_ML : fl)
         (nsect : nat) (return_scores : bool) (azimuths : option measurand)
         (verbose : bool) (minRH : fl) (scan_type : string)
         (heights : option measurand) (fdir : string)
         (st : state) (r : returned) (st' : state),
    run_winter melting_layer csu_fhc_winter dz zdr rho kdp ldr sn T_ use_temp
      band method sn_thresh expected_ML nsect return_scores azimuths verbose
      minRH scan_type heights fdir st = Ok (r, st') ->
    Forall (fun x => x = (-1)%Z \/ (1 <= x)%Z) (deref st' (winter_hca_of r)).
Proof.
  intros dz zdr rho kdp ldr sn T_ use_temp band method sn_thresh expected_ML
         nsect return_scores azimuths verbose minRH scan_type heights fdir
         st r st' Hrun.
  pose proof Hrun as Hinv.
  apply run_winter_ok_inv in Hinv. cbv zeta in Hinv.
  destruct Hinv as (w0 & fc & Hw0 & Hfc & Hlw & Hlf & Hlc & Hloc & _ & Hst).
  set (res := melting_layer dz zdr kdp rho sn heights scan_type verbose band
                fdir azimuths expected_ML minRH sn_thresh nsect) in *.
  assert (Hwpos : Forall (fun x => (3 <= x)%Z) (renumber_warm w0)).
  { apply argmax_axis0_plus1_range in Hw0. destruct Hw0 as [_ Hrange].
    eapply Forall_impl; [| exact (renumber_warm_range w0 _ Hrange)].
    intros x [H3 _]. exact H3. }
  assert (Hcpos : Forall (fun x => (1 <= x)%Z) fc).
  { apply argmax_axis0_plus1_range in Hfc. destruct Hfc as [_ Hrange].
    eapply Forall_impl; [| exact Hrange]. intros x Hx. cbn beta in Hx. lia. }
  apply Forall_forall. intros x Hx. apply In_nth_error in Hx.
  destruct Hx as [i Hi].
  assert (Hlen : List.length (deref st' (winter_hca_of r)) =
                 List.length (ml_meltlev res)).
  { rewrite Hloc, Hst, deref_framed. cbn [nth]. unfold melt_overrides.
    rewrite !length_fill, length_regime_assignment, length_map.
    unfold remap_wet_snow. now rewrite length_fill. }
  destruct (nth_error_same_length _ (ml_meltlev res) i x (eq_sym Hlen) Hi) as [m Hm].
  destruct (nth_error_same_length _ (ml_fh res) i m Hlf Hm) as [f Hf].
  pose proof Hi as Hi'. rewrite Hloc, Hst, deref_framed in Hi'. cbn [nth] in Hi'.
  destruct (nth_error_same_length (ml_meltlev res) (renumber_warm w0) i m)
    as [w Hw]; [now rewrite length_renumber_warm | exact Hm |].
  destruct (nth_error_same_length (ml_meltlev res) fc i m Hlc Hm) as [c Hc].
  pose proof (remap_wet_snow_bin (ml_fh res) i f Hf) as Hf'.
  assert (Hbase : nth_error (map (fun _ : Z => (0 - 1)%Z) (remap_wet_snow (ml_fh res))) i
                  = Some (-1)%Z).
  { rewrite nth_error_map, Hf'. reflexivity. }
  pose proof (regime_assignment_bin (String.eqb scan_type "grid") _ _ _ _ i
                m w c (-1)%Z Hm Hw Hc Hbase) as Hreg.
  destruct (melt_overrides_bin (remap_wet_snow (ml_fh res))
              (regime_assignment (String.eqb scan_type "grid") (ml_meltlev res)
                 (renumber_warm w0) fc
                 (map (fun _ : Z => (0 - 1)%Z) (remap_wet_snow (ml_fh res))))
              i (if (f =? 2)%Z then 5%Z else f)) as (y & Hy & Hbin);
    [| exact Hf' |].
  { rewrite length_regime_assignment. apply length_map. }
  rewrite Hreg in Hy. injection Hy as Hy. rewrite Hbin in Hi'.
  injection Hi' as Hi'.
  rewrite Forall_forall in Hwpos, Hcpos.
  pose proof (Hwpos w (nth_error_In _ _ Hw)) as Hw3.
  pose proof (Hcpos c (nth_error_In _ _ Hc)) as Hc1.
  subst x y.
  repeat match goal with
         | |- context [if ?b then _ else _] => destruct b
         end; lia.
Qed.

(** X24: the warm categories handed back with the scores hold no 1 and
    no 2: the two are renumbered 6 and 7, so every entry is at least 3, and
    with the two warm species every entry is 6 (frozen) or 7 (rain). *)
Theorem run_winter_warm_categories :
  forall (dz zdr rho kdp ldr sn T_ : option measurand)
         (use_temp : bool) (band method : string) (sn_thresh expected_ML : fl)
         (nsect : nat) (azimuths : option measurand)
         (verbose : bool) (minRH : fl) (scan_type : string)
         (heights : option measurand) (fdir : string)
         (st : state) (r : returned) (st' : state),
    run_winter melting_layer csu_fhc_winter dz zdr rho kdp ldr sn T_ use_temp
      band method sn_thresh expected_ML nsect true azimuths verbose
      minRH scan_type heights fdir st = Ok (r, st') ->
    exists (w : loc) (scores : named cube) (hca : named loc),
      r = HcaScores w scores hca /\
      Forall (fun x => (3 <= x)%Z) (deref st' (warm hca)) /\
      (c_rows (csu_fhc_winter dz zdr None kdp true T_ "C"%string true verbose fdir) = 2 ->
       Forall (fun x => x = 6%Z \/ x = 7%Z) (deref st' (warm hca))).
Proof.
  intros dz zdr rho kdp ldr sn T_ use_temp band method sn_thresh expected_ML
         nsect azimuths verbose minRH scan_type heights fdir st r st' Hrun.
  apply run_winter_ok_inv in Hrun. cbv zeta in Hrun.
  destruct Hrun as (w0 & fc & Hw0 & _ & _ & _ & _ & _ & Hr & Hst).
  destruct (Hr eq_refl) as (w & scores & Hret).
  exists w, scores. eexists. split; [exact Hret |]. cbn [warm].
  rewrite Hst, deref_framed. cbn [nth].
  apply argmax_axis0_plus1_range in Hw0. destruct Hw0 as [_ Hrange].
  pose proof (renumber_warm_range w0 _ Hrange) as Hren.
  split.
  - eapply Forall_impl; [| exact Hren]. intros x [H3 _]. exact H3.
  - intros Hrows. rewrite Hrows in Hren.
    eapply Forall_impl; [| exact Hren]. intros x [H3 Hx]. cbn beta in *. lia.
Qed.

(** X25: what is handed back with the scores is consistent.  A call
    with [return_scores=True] that returns hands back the three score
    cubes as its callees returned them, and three categorizations that
    the blend has left alone: [hca['cold']] is the arg-max of
    [scores['cold']] over the species axis plus 1, [hca['warm']] is that
    of [scores['warm']] with 1 and 2 renumbered 6 and 7, and [hca['ML']]
    is the partitioner's melt categories with 2 renumbered 5. *)
Theorem run_winter_returned_categories :
  forall (dz zdr rho kdp ldr sn T_ : option measurand)
         (use_temp : bool) (band method : string) (sn_thresh expected_ML : fl)
         (nsect : nat) (azimuths : option measurand)
         (verbose : bool) (minRH : fl) (scan_type : string)
         (heights : option measurand) (fdir : string)
         (st : state) (r : returned) (st' : state),
    run_winter melting_layer csu_fhc_winter dz zdr rho kdp ldr sn T_ use_temp
      band method sn_thresh expected_ML nsect true azimuths verbose
      minRH scan_type heights fdir st = Ok (r, st') ->
    let res := melting_layer dz zdr kdp rho sn heights scan_type verbose band
                 fdir azimuths expected_ML minRH sn_thresh nsect in
    exists (w : loc) (scores : named cube) (hca : named loc),
      r = HcaScores w scores hca /\
      ML scores = ml_scores res /\
      warm scores =
      csu_fhc_winter dz zdr None kdp true T_ "C"%string true verbose fdir /\
      cold scores =
      csu_fhc_winter dz zdr None kdp true T_ "C"%string false verbose fdir /\
      argmax_axis0_plus1 (c_rows (cold scores)) (c_rest (cold scores))
        (c_data (cold scores)) = Ok (deref st' (cold hca)) /\
      (exists w0 : list Z,
          argmax_axis0_plus1 (c_rows (warm scores)) (c_rest (warm scores))
            (c_data (warm scores)) = Ok w0 /\
          deref st' (warm hca) = renumber_warm w0) /\
      deref st' (ML hca) = remap_wet_snow (ml_fh res).
Proof.
  intros dz zdr rho kdp ldr sn T_ use_temp band method sn_thresh expected_ML
         nsect azimuths verbose minRH scan_type heights fdir st r st' Hrun res.
  rewrite (framed_nil st) in Hrun. rewrite run_winter_computes in Hrun.
  cbv zeta in Hrun. fold res in Hrun.
  set (scores_warm :=
         csu_fhc_winter dz zdr None kdp true T_ "C"%string true verbose fdir) in *.
  set (scores_cold :=
         csu_fhc_winter dz zdr None kdp true T_ "C"%string false verbose fdir) in *.
  destruct (argmax_axis0_plus1 (c_rows scores_warm) _ _) as [w0 | e] eqn:Hw0;
    [| discriminate].
  destruct (argmax_axis0_plus1 (c_rows scores_cold) _ _) as [fc | e] eqn:Hfc;
    [| discriminate].
  destruct (List.length w0 =? _); cbn [negb] in Hrun; [| discriminate].
  destruct (List.length (ml_fh res) =? _); cbn [negb] in Hrun; [| discriminate].
  destruct (List.length fc =? _); cbn [negb] in Hrun; [| discriminate].
  injection Hrun as Hr Hst. subst r st'.
  eexists; eexists; eexists. split; [reflexivity |].
  cbn [ML warm cold].
  split; [reflexivity |]. split; [reflexivity |]. split; [reflexivity |].
  rewrite !deref_framed. cbn [nth].
  split; [exact Hfc |]. split; [| reflexivity].
  exists w0. split; [exact Hw0 | reflexivity].
Qed.

End Externals.

(** *** Concrete runs *)

Lemma run_winter_empty_species_axis_witness :
  run_winter sample_melting_layer
    (fun _ _ _ _ _ _ _ _ _ _ => {| c_rows := 0; c_rest := [3]; c_data := [] |})
    None None None None None None None false "S" "linear" (Fin 5%Q) (Fin 4%Q) 36
    false None true (Fin (1 # 2)) "ppi" None "csv" initial = Raise ValueError.
Proof.
  apply (run_winter_empty_species_axis sample_melting_layer
           (fun _ _ _ _ _ _ _ _ _ _ => {| c_rows := 0; c_rest := [3]; c_data := [] |})).
  left. reflexivity.
Defined.



Lemma run_winter_bin_witness :
  exists r st',
    sample_run false "grid" = Ok (r, st') /\
    exists w c : Z,
      nth_error (deref st' (List.length (heap initial) + 2)) 2 = Some w /\
      nth_error (deref st' (List.length (heap initial) + 3)) 2 = Some c /\
      nth_error (deref st' (winter_hca_of r)) 2 =
      Some (if ((1 =? 0) || (1 =? -1))%Z then (-1)%Z
            else if ((1 =? 2) || (1 =? 5))%Z then 5%Z
                 else if String.eqb "grid" "grid" && (1 =? 1)%Z then c
                      else if (1 =? 2)%Z then c
                           else if (1 =? 0)%Z then w else (-1)%Z).
Proof.
  eexists; eexists. split; [vm_compute; reflexivity |].
  pose proof (run_winter_bin
                sample_melting_layer sample_csu_fhc_winter
                None None None None None None None false "S" "linear"
                (Fin 5%Q) (Fin 4%Q) 36 false None true (Fin (1 # 2)) "grid" None
                "csv" initial _ _ ltac:(vm_compute; reflexivity)) as Hthm.
  cbv zeta in Hthm. apply (Hthm 2 1%Z 1%Z); reflexivity.
Defined.

Lemma run_winter_never_zero_witness :
  exists r st',
    sample_run false "grid" = Ok (r, st') /\
    Forall (fun x => x = (-1)%Z \/ (1 <= x)%Z) (deref st' (winter_hca_of r)).
Proof.
  eexists; eexists. split; [vm_compute; reflexivity |].
  exact (run_winter_never_zero
           sample_melting_layer sample_csu_fhc_winter
           None None None None None None None false "S" "linear"
           (Fin 5%Q) (Fin 4%Q) 36 false None true (Fin (1 # 2)) "grid" None
           "csv" initial _ _ ltac:(vm_compute; reflexivity)).
Defined.

Lemma run_winter_warm_categories_witness :
  exists r st',
    sample_run true "ppi" = Ok (r, st') /\
    exists (w : loc) (scores : named cube) (hca : named loc),
      r = HcaScores w scores hca /\
      Forall (fun x => (3 <= x)%Z) (deref st' (warm hca)) /\
      (c_rows (sample_csu_fhc_winter None None None None true None "C" true true "csv") = 2 ->
       Forall (fun x => x = 6%Z \/ x = 7%Z) (deref st' (warm hca))).
Proof.
  eexists; eexists. split; [vm_compute; reflexivity |].
  exact (run_winter_warm_categories
           sample_melting_layer sample_csu_fhc_winter
           None None None None None None None false "S" "linear"
           (Fin 5%Q) (Fin 4%Q) 36 None true (Fin (1 # 2)) "ppi" None
           "csv" initial _ _ ltac:(vm_compute; reflexivity)).
Defined.

Lemma run_winter_returned_categories_witness :
  exists r st',
    sample_run true "ppi" = Ok (r, st') /\
    exists (w : loc) (scores : named cube) (hca : named loc),
      r = HcaScores w scores hca /\
      ML scores =
      ml_scores (sample_melting_layer None None None None None None "ppi" true
                   "S" "csv" None (Fin 4%Q) (Fin (1 # 2)) (Fin 5%Q) 36) /\
      warm scores =
      sample_csu_fhc_winter None None None None true None "C" true true "csv" /\
      cold scores =
      sample_csu_fhc_winter None None None None true None "C" false true "csv" /\
      argmax_axis0_plus1 (c_rows (cold scores)) (c_rest (cold scores))
        (c_data (cold scores)) = Ok (deref st' (cold hca)) /\
      (exists w0 : list Z,
          argmax_axis0_plus1 (c_rows (warm scores)) (c_rest (warm scores))
            (c_data (warm scores)) = Ok w0 /\
          deref st' (warm hca) = renumber_warm w0) /\
      deref st' (ML hca) =
      remap_wet_snow
        (ml_fh (sample_melting_layer None None None None None None "ppi" true
                  "S" "csv" None (Fin 4%Q) (Fin (1 # 2)) (Fin 5%Q) 36)).
Proof.
  eexists; eexists. split; [vm_compute; reflexivity |].
  exact (run_winter_returned_categories
           sample_melting_layer sample_csu_fhc_winter
           None None None None None None None false "S" "linear"
           (Fin 5%Q) (Fin 4%Q) 36 None true (Fin (1 # 2)) "ppi" None
           "csv" initial _ _ ltac:(vm_compute; reflexivity)).
Defined.

End WinterExtra.
